(** * duckdns: configuration merge and update dispatcher

    A shallow embedding of [main.go].  The program resolves an update
    request (a token and a list of subdomain names) from the command line,
    the process environment and a YAML file, then issues one HTTP GET per
    name and aggregates the failures.

    Go strings are byte sequences: they are [string] here.  Calls that
    leave the process (environment, file system, network) are nodes of a
    program tree [Prog]; a [World] answers them and [run] records the
    calls made, in order.  The logrus Debug and Error calls only write to
    the log and are left out; [logrus.Fatal] terminates the process with
    status 1 and is the [Exit] node. *)

From Stdlib Require Import ZArith Ascii.
From stdpp Require Import base tactics option list strings gmap.

Local Open Scope stdpp_scope.

(** ** The part of Go's standard library the program calls *)

Module strings.

(** [strings.HasPrefix(s, prefix)] *)
Fixpoint HasPrefix (s prefix : string) : bool :=
  match prefix, s with
  | "", _ => true
  | String _ _, "" => false
  | String p prefix', String c s' =>
      if decide (c = p) then HasPrefix s' prefix' else false
  end.

(** [strings.Contains(s, substr)]: [substr] occurs somewhere in [s]. *)
Fixpoint Contains (s substr : string) : bool :=
  if HasPrefix s substr then true
  else match s with
       | "" => false
       | String _ s' => Contains s' substr
       end.

(** [strings.Join(elems, sep)] *)
Fixpoint Join (elems : list string) (sep : string) : string :=
  match elems with
  | [] => ""
  | [e] => e
  | e :: rest => e +:+ sep +:+ Join rest sep
  end.

(** The scan behind [strings.Split] for a non-empty separator: at each
    position where [sep] starts a new field begins and the bytes of
    [sep] are skipped ([skip] counts those still to pass); any other
    byte goes to the current field. *)
Fixpoint fields_from (sep : string) (skip : nat) (s : string) : list string :=
  match s with
  | "" => [""]
  | String c s' =>
      match skip with
      | S k => fields_from sep k s'
      | O =>
          if HasPrefix s sep
          then "" :: fields_from sep (String.length sep - 1) s'
          else match fields_from sep 0 s' with
               | f :: fs => String c f :: fs
               | [] => [String c ""]
               end
      end
  end.

(** [strings.Split(s, sep)].  With an empty separator Go cuts after
    each UTF-8 sequence; that case is given here byte by byte (the
    program always passes the separator [" "]). *)
Definition Split (s sep : string) : list string :=
  match sep with
  | "" => (fun c => String c "") <$> String.list_ascii_of_string s
  | _ => fields_from sep 0 s
  end.

End strings.

Module fmt.

(** [fmt.Sprintf] for formats whose only directives are [%s] and [%%],
    applied to string operands: each [%s] is replaced by the next
    operand; a missing one prints [%!s(MISSING)] and unused ones are
    reported at the end as [%!(EXTRA string=...)]. *)
Fixpoint Sprintf (format : string) (a : list string) : string :=
  match format with
  | "" =>
      match a with
      | [] => ""
      | _ => "%!(EXTRA " +:+
             strings.Join ((fun x => "string=" +:+ x) <$> a) ", " +:+ ")"
      end
  | String "%" (String "s" rest) =>
      match a with
      | x :: a' => x +:+ Sprintf rest a'
      | [] => "%!s(MISSING)" +:+ Sprintf rest []
      end
  | String "%" (String "%" rest) => String "%" (Sprintf rest a)
  | String c rest => String c (Sprintf rest a)
  end.

End fmt.

(** ** Data model *)

(** A Go [error], observed through its [Error()] text only. *)
Record error : Type := errors_New { Error : string }.

(** A Go result pair [(value, err)] with [err] nil or not. *)
Inductive result (A : Type) : Type :=
| Ok (a : A)
| Err (e : error).
Arguments Ok {A} a.
Arguments Err {A} e.

(** [Update] contains everything that DuckDNS will need to update a record. *)
Record Update : Type := mkUpdate {
  Token : string;
  Names : list string
}.

(** [CLIOptions] are to set things via CLI. *)
Record CLIOptions : Type := mkCLIOptions {
  cli_Debug : bool;
  cli_File : string;
  cli_Token : string;
  cli_Names : list string
}.

(** [Valid] checks that all parameters are set for an update. *)
Definition Valid (u : Update) : bool :=
  if bool_decide (0 < length (Names u))%nat && bool_decide (Token u ≠ "")
  then true
  else false.

(** [getConfigCLI] sets the arguments for an update if they have been
    passed in on the CLI. *)
Definition getConfigCLI (c : CLIOptions) : Update :=
  let u := mkUpdate "" [] in
  let u := mkUpdate (cli_Token c) (Names u) in
  let u := mkUpdate (Token u) (cli_Names c) in
  u.

(** ** Calls that leave the process *)

(** The body of an HTTP response: a handle the bytes are read from. *)
Definition ReadCloser : Type := nat.

(** [http.Response], with the one field the program reads. *)
Record Response : Type := mkResponse { Body : ReadCloser }.

Inductive Call : Type :=
| os_Getenv (key : string)
| ioutil_ReadFile (filename : string)
| http_Get (url : string)
| ioutil_ReadAll (r : ReadCloser)
| Body_Close (r : ReadCloser).

Global Instance Call_eq_dec : EqDecision Call.
Proof. solve_decision. Defined.

(** What each call hands back to the program. *)
Definition Answer (c : Call) : Type :=
  match c with
  | os_Getenv _ => string
  | ioutil_ReadFile _ => result string
  | http_Get _ => result Response
  | ioutil_ReadAll _ => result string
  | Body_Close _ => unit
  end.

(** A program: it returns, or terminates the process ([os.Exit]), or
    makes a call and goes on with the answer. *)
Inductive Prog (A : Type) : Type :=
| Ret (a : A)
| Exit (code : Z)
| Vis (c : Call) (k : Answer c -> Prog A).
Arguments Ret {A} a.
Arguments Exit {A} code.
Arguments Vis {A} c k.

Fixpoint bind {A B : Type} (p : Prog A) (f : A -> Prog B) : Prog B :=
  match p with
  | Ret a => f a
  | Exit code => Exit code
  | Vis c k => Vis c (fun x => bind (k x) f)
  end.

Definition call (c : Call) : Prog (Answer c) := Vis c Ret.

Notation "'let*' x ':=' p 'in' q" := (bind p (fun x => q))
  (at level 10, x name, p at level 100, q at level 200).

(** A [for _, v := range l] loop whose body updates the loop state. *)
Fixpoint forRange {A S : Type} (l : list A) (body : S -> A -> Prog S) (s : S)
  : Prog S :=
  match l with
  | [] => Ret s
  | v :: l' => let* s' := body s v in forRange l' body s'
  end.

(** [env.String(key, fallback)] of github.com/TV4/env: the variable's
    value, or [fallback] when it is unset or empty. *)
Definition env_String (key fallback : string) : Prog string :=
  let* v := call (os_Getenv key) in
  if decide (v ≠ "") then Ret v else Ret fallback.

Definition newline : string := String "010" "".

(** ** The program *)

Section Program.

(** [yaml.Unmarshal(in, &out)] of gopkg.in/yaml.v2: the value [out]
    holds afterwards, and the error if any. *)
Variable yaml_Unmarshal : string -> Update -> Update * option error.

(** [getConfigFile] reads the config for DuckDNS. *)
Definition getConfigFile (existing : Update) (file : string) : Prog Update :=
  let update := mkUpdate "" [] in
  let* r := call (ioutil_ReadFile file) in
  match r with
  | Err err => Ret existing
  | Ok yamlFile =>
      let (update, err) := yaml_Unmarshal yamlFile update in
      match err with
      | Some _ => Ret existing
      | None =>
          (* Set the token if it's not empty and doesn't already exist *)
          let existing :=
            if decide (Token update = "") then existing
            else if decide (Token existing = "")
                 then mkUpdate (Token update) (Names existing)
                 else existing in
          (* Set names to if they exist and value is not already set *)
          let existing :=
            if decide (length (Names update) = 0%nat) then existing
            else if decide (length (Names existing) = 0%nat)
                 then mkUpdate (Token existing) (Names update)
                 else existing in
          Ret existing
      end
  end.

(** [getConfigEnv] is for reading items out of the environment if you
    didn't want to set them on the CLI. *)
Definition getConfigEnv (u : Update) : Prog Update :=
  let* token := env_String "DUCK_TOKEN" "" in
  let* name := env_String "DUCK_NAMES" "" in
  (* Set the token if not already set *)
  let u :=
    if decide (Token u = "") then mkUpdate token (Names u) else u in
  let u :=
    if bool_decide (length (Names u) = 0%nat) && bool_decide (name ≠ "")
    then mkUpdate (Token u) (strings.Split name " ")
    else u in
  Ret u.

Definition stub : string := "https://www.duckdns.org/update?domains=".
Definition tokenStub : string := "&token=".
Definition ipStub : string := "&ip=".

(** One turn of the loop of [makeUpdate], for the name [v]; [errs] is
    the slice of failure texts collected so far. *)
Definition updateName (update : Update) (errs : list string) (v : string)
  : Prog (list string) :=
  let url :=
    fmt.Sprintf "%s%s%s%s%s" [stub; v; tokenStub; Token update; ipStub] in
  let* r := call (http_Get url) in
  match r with
  | Err err => Ret (errs ++ [Error err])
  | Ok res =>
      let* r := call (ioutil_ReadAll (Body res)) in
      match r with
      | Err err => Ret (errs ++ [Error err])
      | Ok bodyBytes =>
          let* _ := call (Body_Close (Body res)) in
          if strings.Contains bodyBytes "KO"
          then Ret (errs ++
                    [fmt.Sprintf "Error updating %s with DuckDNS" [v]])
          else Ret errs
      end
  end.

Definition makeUpdate (update : Update) : Prog (option error) :=
  if negb (Valid update) then Exit 1
  else
    let* errs := forRange (Names update) (updateName update) [] in
    if decide (length errs ≠ 0%nat)
    then Ret (Some (errors_New (strings.Join errs newline)))
    else Ret None.

(** [main], from the parsed command line on. *)
Definition main (cli : CLIOptions) : Prog unit :=
  (* CLI vars *)
  let update := getConfigCLI cli in
  (* Set things that weren't set by the CLI *)
  let* update := (if negb (Valid update)
                  then getConfigEnv update
                  else Ret update) in
  (* File vars *)
  let* update := (if negb (Valid update)
                  then getConfigFile update (cli_File cli)
                  else Ret update) in
  let* err := makeUpdate update in
  match err with
  | Some _ => Exit 1
  | None => Ret tt
  end.

End Program.

(** ** Running a program *)

(** The world outside the process.  The environment is a finite map,
    fixed while the process runs (the program never sets a variable).
    The network may answer differently each time: its answers depend on
    the calls made so far. *)
Record World : Type := mkWorld {
  environ : gmap string string;
  files : string -> result string;
  network : list Call -> string -> result Response;
  bodies : list Call -> ReadCloser -> result string
}.

Definition answer (w : World) (history : list Call) (c : Call) : Answer c :=
  match c with
  | os_Getenv key => default "" (environ w !! key)
  | ioutil_ReadFile filename => files w filename
  | http_Get url => network w history url
  | ioutil_ReadAll r => bodies w history r
  | Body_Close _ => tt
  end.

Inductive Outcome (A : Type) : Type :=
| Returned (a : A)
| Exited (code : Z).
Arguments Returned {A} a.
Arguments Exited {A} code.

(** [run w history p]: how [p] ends in world [w] after the calls of
    [history], and the calls it makes, in order. *)
Fixpoint run {A : Type} (w : World) (history : list Call) (p : Prog A)
  : Outcome A * list Call :=
  match p with
  | Ret a => (Returned a, [])
  | Exit code => (Exited code, [])
  | Vis c k =>
      let (o, t) := run w (history ++ [c]) (k (answer w history c)) in
      (o, c :: t)
  end.

(** The URLs of the HTTP GET calls of a trace, in order. *)
Definition gets (t : list Call) : list string :=
  omap (fun c => match c with http_Get url => Some url | _ => None end) t.

(** The calls that read configuration: environment and file system. *)
Definition reads_config (c : Call) : bool :=
  match c with
  | os_Getenv _ | ioutil_ReadFile _ => true
  | _ => false
  end.

(** The failure texts one turn of the loop records for [v] (none or one),
    when it starts after the calls of [history]. *)
Definition recorded (w : World) (history : list Call) (u : Update) (v : string)
  : list string :=
  match fst (run w history (updateName u [] v)) with
  | Returned errs => errs
  | Exited _ => []
  end.

(** The lines of a text: its pieces between newline bytes. *)
Definition lines (s : string) : list string := strings.Split s newline.

(** The URL [makeUpdate] builds for the name [v]. *)
Definition updateURL (update : Update) (v : string) : string :=
  fmt.Sprintf "%s%s%s%s%s" [stub; v; tokenStub; Token update; ipStub].

(** The calls one turn of the loop makes for [v]. *)
Definition calls (w : World) (history : list Call) (u : Update) (v : string)
  : list Call :=
  snd (run w history (updateName u [] v)).

(** The failure texts the whole loop records, name after name. *)
Fixpoint failures (w : World) (history : list Call) (u : Update)
    (names : list string) : list string :=
  match names with
  | [] => []
  | v :: names' =>
      recorded w history u v ++
      failures w (history ++ calls w history u v) u names'
  end.

(** All calls of the loop. *)
Fixpoint loop_calls (w : World) (history : list Call) (u : Update)
    (names : list string) : list Call :=
  match names with
  | [] => []
  | v :: names' =>
      calls w history u v ++
      loop_calls w (history ++ calls w history u v) u names'
  end.

(** What [makeUpdate] returns for the failure texts [errs]. *)
Definition aggregate (errs : list string) : option error :=
  if decide (length errs ≠ 0%nat)
  then Some (errors_New (strings.Join errs newline))
  else None.

(** The value of an environment variable, empty when it is unset. *)
Definition getenv (w : World) (key : string) : string :=
  default "" (environ w !! key).

(** What the environment reader leaves in the request. *)
Definition envMerged (w : World) (u : Update) : Update :=
  let token := getenv w "DUCK_TOKEN" in
  let name := getenv w "DUCK_NAMES" in
  let u := if decide (Token u = "") then mkUpdate token (Names u) else u in
  if bool_decide (length (Names u) = 0%nat) && bool_decide (name ≠ "")
  then mkUpdate (Token u) (strings.Split name " ")
  else u.

(** The last step of [main]: dispatch, then the exit status. *)
Definition dispatch (update : Update) : Prog unit :=
  let* err := makeUpdate update in
  match err with
  | Some _ => Exit 1
  | None => Ret tt
  end.

(** ** Sample worlds *)

(** The URL of the latest GET of a history. *)
Definition lastGet (h : list Call) : string := default "" (last (gets h)).

(** A world where every GET succeeds and the body read back for a URL is
    [reply url]. *)
Definition scripted (env : gmap string string) (fs : string -> result string)
    (reply : string -> string) : World :=
  mkWorld env fs
    (fun h _ => Ok (mkResponse (length h)))
    (fun h _ => Ok (reply (lastGet h))).

(** A file system without any file. *)
Definition noFile (filename : string) : result string :=
  Err (errors_New ("open " +:+ filename +:+ ": no such file or directory")).

(** A decoder that knows one document and rejects every other input. *)
Definition sampleUnmarshal (input : string) (out : Update)
  : Update * option error :=
  if decide (input = "token: abc")
  then (mkUpdate "abc" (Names out), None)
  else (out, Some (errors_New "yaml: unmarshal errors")).

(** Sample command lines, environments and requests. *)
Definition sampleCLI : CLIOptions :=
  mkCLIOptions false "duckdns.yaml" "tok" ["home"; "lab"].

Definition emptyCLI : CLIOptions := mkCLIOptions false "duckdns.yaml" "" [].

Definition namesOnlyCLI : CLIOptions :=
  mkCLIOptions false "duckdns.yaml" "" ["home"].

Definition sampleEnv (names : string) : gmap string string :=
  <["DUCK_TOKEN" := "t"]> (<["DUCK_NAMES" := names]> ∅).

Definition namesOnlyEnv (names : string) : gmap string string :=
  <["DUCK_NAMES" := names]> ∅.

(** A world where every update succeeds. *)
Definition allOK (env : gmap string string) : World :=
  scripted env noFile (fun _ => "OK").

(** Three names, the first with a newline byte inside, after a ["#"].
    In the URL built for it the newline is in the fragment: [net/url]
    refuses a control byte only in the part before the ["#"], and the
    fragment is not sent, so the request is made (without its token). *)
Definition threeNames : Update :=
  mkUpdate "t" ["a#" +:+ newline +:+ "b"; "c"; "d"].

(** A world where the update of the name ["d"] succeeds and every other
    update is answered with the failure body. *)
Definition onlyDOK : World :=
  scripted ∅ noFile
    (fun url => if decide (url = updateURL threeNames "d") then "OK" else "KO").

(** The same answers, with the three names and the token in the
    environment. *)
Definition threeNamesWorld : World :=
  scripted (sampleEnv ("a#" +:+ newline +:+ "b c d")) noFile
    (fun url => if decide (url = updateURL threeNames "d") then "OK" else "KO").

(** A world where the GET for the name ["a"] fails, the body of the
    answer for the name ["b"] cannot be read, and every other update
    succeeds. *)
Definition flaky : World :=
  mkWorld ∅ noFile
    (fun h url =>
       if decide (url = updateURL (mkUpdate "t" []) "a")
       then Err (errors_New "dial tcp: i/o timeout")
       else Ok (mkResponse (length h)))
    (fun h _ =>
       if decide (lastGet h = updateURL (mkUpdate "t" []) "b")
       then Err (errors_New "unexpected EOF")
       else Ok "OK").

(** A text has a stray space: leading, trailing, or two in a row. *)
Definition stray_space (s : string) : Prop :=
  (exists r, s = " " +:+ r) \/
  (exists r, s = r +:+ " ") \/
  (exists a b, s = a +:+ "  " +:+ b).

(** ** The merge as a whole *)

(** The first of two values that is set. *)
Definition orToken (a b : string) : string := if decide (a = "") then b else a.

Definition orNames (a b : list string) : list string :=
  if decide (a = []) then b else a.

(** What each source has to offer: the environment ... *)
Definition envNames (w : World) : list string :=
  if decide (getenv w "DUCK_NAMES" = "") then []
  else strings.Split (getenv w "DUCK_NAMES") " ".

(** ... and the file, which offers nothing when it cannot be read or does
    not parse. *)
Definition fileParsed (yaml_Unmarshal : string -> Update -> Update * option error)
    (w : World) (file : string) : Update :=
  match files w file with
  | Err _ => mkUpdate "" []
  | Ok yamlFile =>
      match yaml_Unmarshal yamlFile (mkUpdate "" []) with
      | (update, None) => update
      | (_, Some _) => mkUpdate "" []
      end
  end.

(** Field by field, the first source that sets it: CLI, environment, file. *)
Definition merged (yaml_Unmarshal : string -> Update -> Update * option error)
    (w : World) (cli : CLIOptions) : Update :=
  let file := fileParsed yaml_Unmarshal w (cli_File cli) in
  mkUpdate
    (orToken (cli_Token cli) (orToken (getenv w "DUCK_TOKEN") (Token file)))
    (orNames (cli_Names cli) (orNames (envNames w) (Names file))).

(** The configuration reads of [main]: none when the CLI request is
    valid, the two variables when the request is valid with them, and
    the file as well otherwise. *)
Definition config_calls (w : World) (cli : CLIOptions) : list Call :=
  if Valid (getConfigCLI cli) then []
  else if Valid (envMerged w (getConfigCLI cli))
       then [os_Getenv "DUCK_TOKEN"; os_Getenv "DUCK_NAMES"]
       else [os_Getenv "DUCK_TOKEN"; os_Getenv "DUCK_NAMES";
             ioutil_ReadFile (cli_File cli)].

(** How many calls of a trace close a body, and how many read one. *)
Definition is_close (c : Call) : bool :=
  match c with Body_Close _ => true | _ => false end.

Definition is_read (c : Call) : bool :=
  match c with ioutil_ReadAll _ => true | _ => false end.

Definition closes (t : list Call) : nat := length (List.filter is_close t).

Definition reads (t : list Call) : nat := length (List.filter is_read t).

(** The failure text for a name whose update was answered ["KO"]. *)
Definition koText (v : string) : string :=
  fmt.Sprintf "Error updating %s with DuckDNS" [v].

(** A world where every GET is answered and every body can be read, and
    the bodies all hold ["KO"] ([ko] true) or all lack it ([ko] false). *)
Definition always_replies (ko : bool) (w : World) : Prop :=
  (forall h url, exists res, network w h url = Ok res) /\
  (forall h r, exists body,
      bodies w h r = Ok body /\ strings.Contains body "KO" = ko).

(** ** Facts about the library functions *)

Lemma string_app_cons (x : ascii) (a b : string) :
  String x a +:+ b = String x (a +:+ b).
Proof. reflexivity. Qed.

Lemma string_app_nil_l (s : string) : "" +:+ s = s.
Proof. reflexivity. Qed.

Lemma string_app_nil_r (s : string) : s +:+ "" = s.
Proof.
  induction s as [|c s IH]; [reflexivity|].
  by rewrite string_app_cons, IH.
Qed.

Module strings_facts.
Import strings.

Lemma HasPrefix_nil (s : string) : HasPrefix s "" = true.
Proof. by destruct s. Qed.

Lemma HasPrefix_spec (s p : string) :
  HasPrefix s p = true <-> exists r, s = p +:+ r.
Proof.
  revert s. induction p as [|x p IH]; intros s.
  - destruct s; (split; [eauto|done]).
  - destruct s as [|c s]; cbn [HasPrefix].
    + split; [done|]. intros [r Hr]. discriminate Hr.
    + case_decide as Hc.
      * subst c. rewrite IH. split; intros [r Hr]; exists r.
        -- by rewrite string_app_cons, Hr.
        -- rewrite string_app_cons in Hr. congruence.
      * split; [done|]. intros [r Hr].
        rewrite string_app_cons in Hr. congruence.
Qed.

Lemma Contains_spec (s t : string) :
  Contains s t = true <-> exists a b, s = a +:+ t +:+ b.
Proof.
  induction s as [|c s IH].
  - cbn [Contains]. destruct (HasPrefix "" t) eqn:Hp.
    + apply HasPrefix_spec in Hp as [r Hr]. split; [|done].
      intros _. by exists "", r.
    + split; [done|]. intros (a & b & Hab).
      destruct a; [|discriminate Hab].
      assert (HasPrefix "" t = true) by (apply HasPrefix_spec; eauto).
      congruence.
  - cbn [Contains]. destruct (HasPrefix (String c s) t) eqn:Hp.
    + apply HasPrefix_spec in Hp as [r Hr]. split; [|done].
      intros _. by exists "", r.
    + rewrite IH. split.
      * intros (a & b & ->). by exists (String c a), b.
      * intros (a & b & Hab). destruct a as [|x a].
        -- assert (HasPrefix (String c s) t = true)
             by (apply HasPrefix_spec; eauto).
           congruence.
        -- rewrite string_app_cons in Hab. injection Hab as _ ->. eauto.
Qed.

Lemma Contains_middle (a x b : string) : Contains (a +:+ x +:+ b) x = true.
Proof. apply Contains_spec. eauto. Qed.

(** Splitting on a one-byte separator [String c ""]. *)

Lemma fields_from_nonempty (sep : string) (k : nat) (s : string) :
  fields_from sep k s <> [].
Proof.
  revert k. induction s as [|x s IH]; intros k; cbn [fields_from]; [done|].
  destruct k as [|k]; [|apply IH].
  destruct (HasPrefix (String x s) sep); [done|].
  by destruct (fields_from sep 0 s).
Qed.

Lemma fields_from_cons (c x : ascii) (s : string) :
  fields_from (String c "") 0 (String x s) =
  if decide (x = c) then "" :: fields_from (String c "") 0 s
  else match fields_from (String c "") 0 s with
       | f :: fs => String x f :: fs
       | [] => [String x ""]
       end.
Proof.
  cbn [fields_from HasPrefix String.length Nat.sub].
  rewrite HasPrefix_nil. by case_decide.
Qed.

Lemma fields_from_app_sep (c : ascii) (a b : string) :
  fields_from (String c "") 0 (a +:+ String c b) =
  fields_from (String c "") 0 a ++ fields_from (String c "") 0 b.
Proof.
  induction a as [|x a IH].
  - rewrite string_app_nil_l, fields_from_cons.
    by rewrite decide_True by done.
  - rewrite string_app_cons, !fields_from_cons. case_decide.
    + by rewrite IH.
    + rewrite IH.
      pose proof (fields_from_nonempty (String c "") 0 a) as Hne.
      by destruct (fields_from (String c "") 0 a).
Qed.

Lemma fields_from_no_sep (c : ascii) (s : string) :
  Contains s (String c "") = false ->
  fields_from (String c "") 0 s = [s].
Proof.
  induction s as [|x s IH]; [done|].
  cbn [Contains HasPrefix]. rewrite fields_from_cons, HasPrefix_nil.
  case_decide as Hx; [done|]. intros Hs. by rewrite IH.
Qed.

Lemma Split_byte (s : string) (c : ascii) :
  Split s (String c "") = fields_from (String c "") 0 s.
Proof. reflexivity. Qed.

Lemma Split_app_sep (c : ascii) (a b : string) :
  Split (a +:+ String c "" +:+ b) (String c "") =
  Split a (String c "") ++ Split b (String c "").
Proof. rewrite !Split_byte. apply fields_from_app_sep. Qed.

(** Joining and splitting back gives the elements again, when none of
    them holds the separator byte. *)
Lemma Split_Join (elems : list string) (c : ascii) :
  elems <> [] ->
  Forall (fun e => Contains e (String c "") = false) elems ->
  Split (Join elems (String c "")) (String c "") = elems.
Proof.
  intros Hne Hall. rewrite Split_byte.
  destruct elems as [|e rest]; [done|]. clear Hne.
  revert e Hall. induction rest as [|e' rest IH]; intros e Hall.
  - apply fields_from_no_sep. by inversion Hall.
  - change (Join (e :: e' :: rest) (String c ""))
      with (e +:+ String c (Join (e' :: rest) (String c ""))).
    inversion Hall as [|? ? He Hrest]; subst.
    rewrite fields_from_app_sep, (fields_from_no_sep _ _ He).
    by rewrite IH.
Qed.

(** Splitting and joining back gives the text again, and no field holds
    the separator byte: the two facts that determine [Split]. *)
Lemma Join_Split (s : string) (c : ascii) :
  Join (Split s (String c "")) (String c "") = s.
Proof.
  rewrite Split_byte. induction s as [|x s IH]; [done|].
  rewrite fields_from_cons.
  pose proof (fields_from_nonempty (String c "") 0 s) as Hne.
  destruct (fields_from (String c "") 0 s) as [|f fs]; [done|].
  case_decide as Hx.
  - subst x. change (Join ("" :: f :: fs) (String c ""))
      with (String c (Join (f :: fs) (String c ""))).
    by rewrite IH.
  - destruct fs as [|f' fs].
    + cbn [Join] in *. by rewrite IH.
    + change (Join (String x f :: f' :: fs) (String c ""))
        with (String x (Join (f :: f' :: fs) (String c ""))).
      by rewrite IH.
Qed.

Lemma Split_fields_no_sep (s : string) (c : ascii) :
  Forall (fun f => Contains f (String c "") = false) (Split s (String c "")).
Proof.
  rewrite Split_byte. induction s as [|x s IH]; [by repeat constructor|].
  rewrite fields_from_cons.
  pose proof (fields_from_nonempty (String c "") 0 s) as Hne.
  destruct (fields_from (String c "") 0 s) as [|f fs]; [done|].
  inversion IH as [|? ? Hf Hfs]; subst.
  case_decide as Hx.
  - by repeat constructor.
  - constructor; [|done]. cbn [Contains HasPrefix].
    rewrite decide_False by done. exact Hf.
Qed.

(** A stray space leaves an empty field. *)
Lemma stray_space_empty_field (s : string) :
  stray_space s -> "" ∈ Split s " ".
Proof.
  rewrite Split_byte.
  intros [[r ->]|[[r ->]|(a & b & ->)]].
  - change (" " +:+ r) with ("" +:+ String " " r).
    rewrite fields_from_app_sep. apply list_elem_of_here.
  - rewrite fields_from_app_sep. apply elem_of_app. right.
    apply list_elem_of_here.
  - change ("  " +:+ b) with (String " " ("" +:+ String " " b)).
    rewrite !fields_from_app_sep. apply elem_of_app. right.
    apply list_elem_of_here.
Qed.

Lemma Sprintf_5 (a b c d e : string) :
  fmt.Sprintf "%s%s%s%s%s" [a; b; c; d; e] = a +:+ b +:+ c +:+ d +:+ e.
Proof. cbn [fmt.Sprintf]. by rewrite string_app_nil_r. Qed.

Lemma Sprintf_error_updating (v : string) :
  fmt.Sprintf "Error updating %s with DuckDNS" [v] =
  "Error updating " +:+ v +:+ " with DuckDNS".
Proof. reflexivity. Qed.

End strings_facts.

(** ** Facts about running programs *)

Lemma run_bind {A B : Type} (w : World) (h : list Call)
    (p : Prog A) (f : A -> Prog B) :
  run w h (bind p f) =
  match run w h p with
  | (Returned a, t) =>
      let (o, t') := run w (h ++ t) (f a) in (o, t ++ t')
  | (Exited code, t) => (Exited code, t)
  end.
Proof.
  revert h. induction p as [a|code|c k IH]; intros h; cbn [bind run].
  - rewrite app_nil_r. by destruct (run w h (f a)).
  - done.
  - rewrite IH. destruct (run w (h ++ [c]) (k (answer w h c))) as [[a|code] t].
    + rewrite <- app_assoc. cbn [app].
      by destruct (run w (h ++ c :: t) (f a)).
    + done.
Qed.

Lemma updateURL_eq (update : Update) (v : string) :
  updateURL update v =
  "https://www.duckdns.org/update?domains=" +:+ v +:+ "&token=" +:+
  Token update +:+ "&ip=".
Proof. unfold updateURL. by rewrite strings_facts.Sprintf_5. Qed.

Ltac turn_cases w h u v :=
  unfold recorded, calls, updateName; fold (updateURL u v);
  cbn [bind call run answer];
  destruct (network w h (updateURL u v)) as [res|err];
    cbn [bind run answer];
  [ destruct (bodies w (h ++ [http_Get (updateURL u v)]) (Body res))
      as [bodyBytes|err]; cbn [bind run answer];
    [ destruct (strings.Contains bodyBytes "KO") eqn:HKO; cbn [run fst snd]
    | cbn [run fst snd] ]
  | cbn [run fst snd] ].

(** One turn of the loop always returns; it adds to [errs] what
    [recorded] says. *)
Lemma updateName_run (w : World) (h : list Call) (u : Update)
    (errs : list string) (v : string) :
  run w h (updateName u errs v) =
  (Returned (errs ++ recorded w h u v), calls w h u v).
Proof. turn_cases w h u v; by rewrite ?app_nil_r. Qed.

(** It makes exactly one GET, for the URL of its name. *)
Lemma gets_calls (w : World) (h : list Call) (u : Update) (v : string) :
  gets (calls w h u v) = [updateURL u v].
Proof. turn_cases w h u v; reflexivity. Qed.

(** It reads no configuration. *)
Lemma calls_no_config (w : World) (h : list Call) (u : Update) (v : string) :
  Forall (fun c => reads_config c = false) (calls w h u v).
Proof. turn_cases w h u v; repeat constructor. Qed.

(** It records at most one failure text. *)
Lemma length_recorded (w : World) (h : list Call) (u : Update) (v : string) :
  (length (recorded w h u v) <= 1)%nat.
Proof. turn_cases w h u v; cbn; lia. Qed.

(** The loop always returns, whatever the network answers. *)
Lemma forRange_run (w : World) (u : Update) (names : list string) :
  forall (h : list Call) (errs : list string),
    run w h (forRange names (updateName u) errs) =
    (Returned (errs ++ failures w h u names), loop_calls w h u names).
Proof.
  induction names as [|v names IH]; intros h errs; cbn [forRange].
  - cbn. by rewrite app_nil_r.
  - rewrite run_bind, updateName_run, IH. cbn [failures loop_calls].
    by rewrite app_assoc.
Qed.

Lemma gets_app (t1 t2 : list Call) : gets (t1 ++ t2) = gets t1 ++ gets t2.
Proof. unfold gets. apply omap_app. Qed.

Lemma gets_loop_calls (w : World) (u : Update) (names : list string) :
  forall h, gets (loop_calls w h u names) = updateURL u <$> names.
Proof.
  induction names as [|v names IH]; intros h; [done|].
  cbn [loop_calls]. by rewrite gets_app, gets_calls, IH.
Qed.

Lemma loop_calls_no_config (w : World) (u : Update) (names : list string) :
  forall h, Forall (fun c => reads_config c = false) (loop_calls w h u names).
Proof.
  induction names as [|v names IH]; intros h; [constructor|].
  cbn [loop_calls]. apply Forall_app. split; [apply calls_no_config|apply IH].
Qed.

Lemma length_failures (w : World) (u : Update) (names : list string) :
  forall h, (length (failures w h u names) <= length names)%nat.
Proof.
  induction names as [|v names IH]; intros h; [done|].
  cbn [failures]. rewrite length_app. cbn [length].
  pose proof (length_recorded w h u v).
  pose proof (IH (h ++ calls w h u v)). lia.
Qed.

Lemma makeUpdate_run (w : World) (h : list Call) (u : Update) :
  Valid u = true ->
  run w h (makeUpdate u) =
  (Returned (aggregate (failures w h u (Names u))),
   loop_calls w h u (Names u)).
Proof.
  intros Hv. unfold makeUpdate. rewrite Hv. cbn [negb].
  rewrite run_bind, forRange_run. cbn [app]. unfold aggregate.
  case_decide; cbn [run]; by rewrite app_nil_r.
Qed.

Lemma makeUpdate_invalid (w : World) (h : list Call) (u : Update) :
  Valid u = false -> run w h (makeUpdate u) = (Exited 1, []).
Proof. intros Hv. unfold makeUpdate. by rewrite Hv. Qed.

(** ** Facts about the configuration merge *)

Lemma Valid_true (u : Update) :
  Valid u = true <-> Names u <> [] /\ Token u <> "".
Proof.
  unfold Valid. destruct (Names u) as [|n ns]; cbn [length].
  - rewrite bool_decide_false by lia. cbn. split; [done|]. by intros [? _].
  - rewrite bool_decide_true by lia. cbn [andb].
    case_bool_decide; split; try done. by intros [_ ?].
Qed.

Lemma Valid_false (u : Update) :
  Valid u = false <-> Names u = [] \/ Token u = "".
Proof.
  unfold Valid. destruct (Names u) as [|n ns]; cbn [length].
  - rewrite bool_decide_false by lia. cbn. split; auto.
  - rewrite bool_decide_true by lia. cbn [andb].
    case_bool_decide as Ht; cbn; split; try done.
    + by intros [?|?].
    + intros _. right. by destruct (decide (Token u = "")).
Qed.

Lemma env_String_run (w : World) (h : list Call) (key : string) :
  run w h (env_String key "") = (Returned (getenv w key), [os_Getenv key]).
Proof.
  unfold env_String. cbn [bind call run answer]. fold (getenv w key).
  destruct (decide (getenv w key = "")) as [E|E].
  - rewrite decide_False by (by intros ?). cbn. by rewrite E.
  - by rewrite decide_True.
Qed.

Lemma getConfigEnv_run (w : World) (h : list Call) (u : Update) :
  run w h (getConfigEnv u) =
  (Returned (envMerged w u), [os_Getenv "DUCK_TOKEN"; os_Getenv "DUCK_NAMES"]).
Proof.
  unfold getConfigEnv.
  rewrite run_bind, env_String_run. cbn [app].
  rewrite run_bind, env_String_run. reflexivity.
Qed.

Lemma envMerged_keeps (w : World) (u : Update) :
  (Token u <> "" -> Token (envMerged w u) = Token u) /\
  (Names u <> [] -> Names (envMerged w u) = Names u).
Proof.
  unfold envMerged. split; intros Hset.
  - rewrite decide_False by done. by destruct (_ && _).
  - assert (length (Names u) <> 0%nat) by (by destruct (Names u)).
    case_decide; cbn [Names]; by rewrite bool_decide_false.
Qed.

Section Merge.

Variable yaml_Unmarshal : string -> Update -> Update * option error.

(** The file reader always returns, after exactly one file read. *)
Lemma getConfigFile_returns (w : World) (h : list Call)
    (existing : Update) (file : string) :
  exists u',
    run w h (getConfigFile yaml_Unmarshal existing file) =
    (Returned u', [ioutil_ReadFile file]) /\
    (Token existing <> "" -> Token u' = Token existing) /\
    (Names existing <> [] -> Names u' = Names existing).
Proof.
  unfold getConfigFile. cbn [bind call run answer].
  destruct (files w file) as [yamlFile|err]; cbn [bind run]; [|eauto].
  destruct (yaml_Unmarshal yamlFile _) as [update [err|]];
    cbn [run]; [eauto|].
  eexists. split; [reflexivity|]. split; intros Hset.
  - repeat case_decide; cbn [Token]; congruence.
  - assert (length (Names existing) <> 0%nat)
      by (by destruct (Names existing)).
    repeat case_decide; cbn [Names Token] in *; congruence.
Qed.

(** A file that cannot be read, or does not parse, changes nothing. *)
Lemma getConfigFile_failed (w : World) (h : list Call)
    (existing : Update) (file : string) :
  (exists err, files w file = Err err) \/
  (exists yamlFile update err,
      files w file = Ok yamlFile /\
      yaml_Unmarshal yamlFile (mkUpdate "" []) = (update, Some err)) ->
  run w h (getConfigFile yaml_Unmarshal existing file) =
  (Returned existing, [ioutil_ReadFile file]).
Proof.
  unfold getConfigFile. cbn [bind call run answer].
  intros [[err ->]|(yamlFile & update & err & -> & Hy)]; cbn [bind run].
  - done.
  - by rewrite Hy.
Qed.

Lemma main_cli_valid (cli : CLIOptions) :
  Valid (getConfigCLI cli) = true ->
  main yaml_Unmarshal cli = dispatch (getConfigCLI cli).
Proof.
  intros Hv. unfold main. rewrite Hv. cbn [negb bind].
  by rewrite Hv.
Qed.

Lemma dispatch_calls (w : World) (h : list Call) (u : Update) :
  Valid u = true ->
  snd (run w h (dispatch u)) = loop_calls w h u (Names u).
Proof.
  intros Hv. unfold dispatch. rewrite run_bind, makeUpdate_run by done.
  destruct (aggregate _); cbn [run snd]; by rewrite app_nil_r.
Qed.

Lemma main_env_valid (w : World) (cli : CLIOptions) :
  Valid (getConfigCLI cli) = false ->
  Valid (envMerged w (getConfigCLI cli)) = true ->
  snd (run w [] (main yaml_Unmarshal cli)) =
  [os_Getenv "DUCK_TOKEN"; os_Getenv "DUCK_NAMES"] ++
  loop_calls w [os_Getenv "DUCK_TOKEN"; os_Getenv "DUCK_NAMES"]
    (envMerged w (getConfigCLI cli)) (Names (envMerged w (getConfigCLI cli))).
Proof.
  intros Hc He. unfold main. rewrite Hc. cbn [negb].
  rewrite run_bind, getConfigEnv_run. cbn [app].
  rewrite He. cbn [negb bind]. fold (dispatch (envMerged w (getConfigCLI cli))).
  destruct (run w _ (dispatch _)) as [o t] eqn:Hd. cbn [snd].
  f_equal. f_equal. change t with (snd (o, t)). rewrite <- Hd.
  by apply dispatch_calls.
Qed.

End Merge.

(** The dispatcher does not depend on the environment or the files. *)
Lemma updateName_config_free (w w' : World) (h : list Call) (u : Update)
    (errs : list string) (v : string) :
  network w' = network w -> bodies w' = bodies w ->
  run w' h (updateName u errs v) = run w h (updateName u errs v).
Proof.
  intros Hn Hb. unfold updateName. cbn [bind call run answer].
  rewrite Hn. destruct (network w h _) as [res|err]; [|done].
  cbn [bind run answer]. rewrite Hb.
  destruct (bodies w _ _) as [bodyBytes|err]; [|done].
  cbn [bind run answer]. by destruct (strings.Contains bodyBytes "KO").
Qed.

Lemma forRange_config_free (w w' : World) (u : Update) (names : list string) :
  network w' = network w -> bodies w' = bodies w ->
  forall h errs,
    run w' h (forRange names (updateName u) errs) =
    run w h (forRange names (updateName u) errs).
Proof.
  intros Hn Hb. induction names as [|v names IH]; intros h errs; [done|].
  cbn [forRange]. rewrite !run_bind, (updateName_config_free w w') by done.
  destruct (run w h (updateName u errs v)) as [[errs'|code] t]; [|done].
  by rewrite IH.
Qed.

Lemma dispatch_config_free (w w' : World) (h : list Call) (u : Update) :
  network w' = network w -> bodies w' = bodies w ->
  run w' h (dispatch u) = run w h (dispatch u).
Proof.
  intros Hn Hb. unfold dispatch, makeUpdate.
  destruct (negb (Valid u)); [done|].
  rewrite !run_bind, (forRange_config_free w w') by done.
  destruct (run w h (forRange _ _ _)) as [[errs|code] t]; [|done].
  by case_decide.
Qed.

Lemma elem_of_gets (t : list Call) (url : string) :
  url ∈ gets t <-> http_Get url ∈ t.
Proof.
  unfold gets. rewrite list_elem_of_omap. split.
  - intros (c & Hc & Hurl). destruct c; try discriminate Hurl.
    by injection Hurl as ->.
  - intros Hc. by exists (http_Get url).
Qed.

(** ** The claims *)

Section Claims.

Variable yaml_Unmarshal : string -> Update -> Update * option error.

(** C1. When the command line gives a non-empty token and a non-empty
    list of names, [main] dispatches exactly that token and those names:
    it is the dispatcher applied to them, so in every world it makes no
    call that reads the environment or a file, its GETs are those of the
    CLI names with the CLI token, and replacing the environment, the file
    system and the YAML decoder by any others changes nothing of the run. *)
Theorem cli_request_is_final (cli : CLIOptions) :
  cli_Token cli <> "" -> cli_Names cli <> [] ->
  let request := mkUpdate (cli_Token cli) (cli_Names cli) in
  main yaml_Unmarshal cli = dispatch request /\
  forall w : World,
    Forall (fun c => reads_config c = false)
      (snd (run w [] (main yaml_Unmarshal cli))) /\
    gets (snd (run w [] (main yaml_Unmarshal cli))) =
      updateURL request <$> cli_Names cli /\
    forall env' fs' decoder',
      run (mkWorld env' fs' (network w) (bodies w)) [] (main decoder' cli) =
      run w [] (main yaml_Unmarshal cli).
Proof.
  intros Ht Hn request.
  assert (Hv : Valid (getConfigCLI cli) = true) by (by apply Valid_true).
  assert (Hmain : forall d, main d cli = dispatch request)
    by (intros d; by rewrite main_cli_valid).
  split; [apply Hmain|]. intros w. rewrite Hmain.
  rewrite (dispatch_calls w [] request Hv). cbn [Names request].
  split; [apply loop_calls_no_config|].
  split; [apply gets_loop_calls|].
  intros env' fs' decoder'. rewrite Hmain.
  by apply dispatch_config_free.
Qed.

(** C2. Neither merge step overwrites a field that is already set: the
    environment reader and the file reader each return a request whose
    token is the one before the step when that was non-empty, and whose
    names are those before the step when they were non-empty.  Merging
    stops at the first valid request: when the CLI request is valid [main]
    reads neither environment nor file, and when the request is valid
    after the environment step [main] reads no file. *)
Theorem merge_never_overwrites (w : World) (h : list Call) (u : Update)
    (file : string) (cli : CLIOptions) :
  (exists u',
      run w h (getConfigEnv u) =
        (Returned u', [os_Getenv "DUCK_TOKEN"; os_Getenv "DUCK_NAMES"]) /\
      (Token u <> "" -> Token u' = Token u) /\
      (Names u <> [] -> Names u' = Names u)) /\
  (exists u',
      run w h (getConfigFile yaml_Unmarshal u file) =
        (Returned u', [ioutil_ReadFile file]) /\
      (Token u <> "" -> Token u' = Token u) /\
      (Names u <> [] -> Names u' = Names u)) /\
  (Valid (getConfigCLI cli) = true ->
   Forall (fun c => reads_config c = false)
     (snd (run w [] (main yaml_Unmarshal cli)))) /\
  (forall u1,
      Valid (getConfigCLI cli) = false ->
      fst (run w [] (getConfigEnv (getConfigCLI cli))) = Returned u1 ->
      Valid u1 = true ->
      Forall (fun c => forall f, c <> ioutil_ReadFile f)
        (snd (run w [] (main yaml_Unmarshal cli))) /\
      gets (snd (run w [] (main yaml_Unmarshal cli))) =
        updateURL u1 <$> Names u1).
Proof.
  split; [|split; [|split]].
  - exists (envMerged w u). split; [apply getConfigEnv_run|].
    apply envMerged_keeps.
  - apply getConfigFile_returns.
  - intros Hv. rewrite main_cli_valid, dispatch_calls by done.
    apply loop_calls_no_config.
  - intros u1 Hc Hu1 Hv. rewrite getConfigEnv_run in Hu1.
    injection Hu1 as <-. rewrite main_env_valid by done. split.
    + apply Forall_app. split; [repeat constructor; discriminate|].
      eapply Forall_impl; [apply loop_calls_no_config|].
      intros c Hread f ->. discriminate Hread.
    + by rewrite gets_app, gets_loop_calls.
Qed.

(** C3. For a valid request, in every world, the dispatcher makes for
    every name [n] of the list the GET whose URL is the plain
    concatenation of the endpoint, [n], ["&token="], the token and
    ["&ip="]; and it makes no GET of any other URL. *)
Theorem dispatcher_url (w : World) (h : list Call) (u : Update) :
  Valid u = true ->
  (forall n, n ∈ Names u ->
     http_Get ("https://www.duckdns.org/update?domains=" +:+ n +:+
               "&token=" +:+ Token u +:+ "&ip=")
     ∈ snd (run w h (makeUpdate u))) /\
  (forall url, http_Get url ∈ snd (run w h (makeUpdate u)) ->
     exists n, n ∈ Names u /\
       url = "https://www.duckdns.org/update?domains=" +:+ n +:+
             "&token=" +:+ Token u +:+ "&ip=").
Proof.
  intros Hv. rewrite makeUpdate_run by done. cbn [snd].
  split.
  - intros n Hn. apply elem_of_gets. rewrite gets_loop_calls.
    rewrite <- updateURL_eq. by apply list_elem_of_fmap_2.
  - intros url Hurl. apply elem_of_gets in Hurl.
    rewrite gets_loop_calls in Hurl.
    apply list_elem_of_fmap in Hurl as (n & -> & Hn).
    exists n. split; [done|]. apply updateURL_eq.
Qed.

(** C4. In the turn of the loop for the name [x], when the GET succeeds
    and the body is read: a body equal to ["OK"] records nothing; a body
    that has ["KO"] anywhere inside records one text, which is
    ["Error updating " ++ x ++ " with DuckDNS"] and so contains [x]; and
    a body without ["KO"] inside records nothing. *)
Theorem response_body_decides (w : World) (h : list Call) (u : Update)
    (errs : list string) (x : string) (res : Response) (body : string) :
  network w h (updateURL u x) = Ok res ->
  bodies w (h ++ [http_Get (updateURL u x)]) (Body res) = Ok body ->
  (body = "OK" ->
   fst (run w h (updateName u errs x)) = Returned errs) /\
  ((exists a b, body = a +:+ "KO" +:+ b) ->
   fst (run w h (updateName u errs x)) =
     Returned (errs ++ ["Error updating " +:+ x +:+ " with DuckDNS"]) /\
   strings.Contains ("Error updating " +:+ x +:+ " with DuckDNS") x = true) /\
  (~ (exists a b, body = a +:+ "KO" +:+ b) ->
   fst (run w h (updateName u errs x)) = Returned errs).
Proof.
  intros Hget Hread.
  assert (Hrun : fst (run w h (updateName u errs x)) =
                 Returned (if strings.Contains body "KO"
                           then errs ++ ["Error updating " +:+ x +:+
                                         " with DuckDNS"]
                           else errs)).
  { unfold updateName. fold (updateURL u x). cbn [bind call run answer].
    rewrite Hget. cbn [bind run answer]. rewrite Hread.
    cbn [bind run answer].
    by destruct (strings.Contains body "KO"). }
  rewrite Hrun. split; [|split].
  - by intros ->.
  - intros Hko. apply strings_facts.Contains_spec in Hko. rewrite Hko.
    split; [done|]. apply strings_facts.Contains_middle.
  - intros Hko. destruct (strings.Contains body "KO") eqn:E; [|done].
    by apply strings_facts.Contains_spec in E.
Qed.

(** C5 (amended). For a valid request the dispatcher returns no error
    when no failure text was recorded, and otherwise one error whose text
    is the recorded texts joined with newline bytes.  When no recorded
    text holds a newline byte itself, the lines of that text are exactly
    the recorded texts; so when exactly two failures are recorded (say for
    two names of three) the text is the two texts with one newline between
    them, and has exactly two lines if neither of them holds a newline. *)
Theorem aggregate_error (w : World) (h : list Call) (u : Update) :
  Valid u = true ->
  let errs := failures w h u (Names u) in
  fst (run w h (makeUpdate u)) =
    Returned (if decide (errs = []) then None
              else Some (errors_New (strings.Join errs newline))) /\
  (errs <> [] ->
   Forall (fun m => strings.Contains m newline = false) errs ->
   lines (strings.Join errs newline) = errs) /\
  (length errs = 2%nat ->
   exists m1 m2,
     errs = [m1; m2] /\
     strings.Join errs newline = m1 +:+ newline +:+ m2 /\
     (strings.Contains m1 newline = false ->
      strings.Contains m2 newline = false ->
      length (lines (strings.Join errs newline)) = 2%nat)).
Proof.
  intros Hv errs. rewrite makeUpdate_run by done. fold errs. cbn [fst].
  split; [|split].
  - unfold aggregate. destruct errs; by repeat case_decide.
  - intros Hne Hall. by apply strings_facts.Split_Join.
  - intros Hlen. destruct errs as [|m1 [|m2 [|? ?]]]; try discriminate Hlen.
    exists m1, m2. split; [done|]. split; [done|]. intros H1 H2.
    unfold lines, newline.
    rewrite strings_facts.Split_Join; [done|done|].
    by repeat constructor.
Qed.

(** C6. For a valid request, in every world (whatever the network
    answers: errors, unreadable bodies, failure bodies), the dispatcher
    returns, and the URLs of its GETs are those of the names of the list,
    one per entry, in the order of the list, repeated names included. *)
Theorem one_attempt_per_name (w : World) (h : list Call) (u : Update) :
  Valid u = true ->
  (exists r, fst (run w h (makeUpdate u)) = Returned r) /\
  gets (snd (run w h (makeUpdate u))) =
    (fun n => "https://www.duckdns.org/update?domains=" +:+ n +:+
              "&token=" +:+ Token u +:+ "&ip=") <$> Names u.
Proof.
  intros Hv. rewrite makeUpdate_run by done. cbn [fst snd].
  split; [eauto|]. rewrite gets_loop_calls.
  apply list_fmap_ext. intros _ n _. apply updateURL_eq.
Qed.

(** C7. When the file cannot be read, or is read but does not parse, the
    file reader returns (the process goes on) the request it was given,
    token and names as they were; so a request that the CLI and the
    environment left empty is still empty after it. *)
Theorem bad_file_changes_nothing (w : World) (h : list Call) (u : Update)
    (file : string) :
  (exists err, files w file = Err err) \/
  (exists yamlFile update err,
      files w file = Ok yamlFile /\
      yaml_Unmarshal yamlFile (mkUpdate "" []) = (update, Some err)) ->
  run w h (getConfigFile yaml_Unmarshal u file) =
    (Returned u, [ioutil_ReadFile file]) /\
  forall cli,
    cli_Token cli = "" -> cli_Names cli = [] ->
    getenv w "DUCK_TOKEN" = "" -> getenv w "DUCK_NAMES" = "" ->
    fst (run w h (getConfigEnv (getConfigCLI cli))) =
      Returned (mkUpdate "" []) /\
    fst (run w h (getConfigFile yaml_Unmarshal (mkUpdate "" []) file)) =
      Returned (mkUpdate "" []).
Proof.
  intros Hbad. split; [by apply getConfigFile_failed|].
  intros cli Ht Hn Het Hen. split.
  - rewrite getConfigEnv_run. cbn [fst]. f_equal.
    unfold envMerged, getConfigCLI. rewrite Ht, Hn, Het, Hen.
    reflexivity.
  - by rewrite getConfigFile_failed.
Qed.

(** C8. When the request has no names and [DUCK_NAMES] is ["a b c"], the
    environment reader returns a request whose names are exactly
    ["a"], ["b"], ["c"]: the value split at the spaces. *)
Theorem env_names_split (w : World) (h : list Call) (u : Update) :
  Names u = [] ->
  environ w !! "DUCK_NAMES" = Some "a b c" ->
  exists u',
    fst (run w h (getConfigEnv u)) = Returned u' /\
    Names u' = ["a"; "b"; "c"] /\
    Names u' = strings.Split "a b c" " ".
Proof.
  intros Hn He. exists (envMerged w u).
  rewrite getConfigEnv_run. split; [done|].
  unfold envMerged, getenv. rewrite He. cbn [default].
  case_decide; cbn [Names]; rewrite Hn; by split.
Qed.

(** C9. [Valid] looks at the length of the list and at the token, not at
    the names: it holds exactly when the list is not empty and the token
    is not empty.  So a request with a non-empty token and the single
    name [""] is valid, and the dispatcher makes for it one GET, whose
    [domains] parameter is empty. *)
Theorem empty_name_is_valid (token : string) :
  token <> "" ->
  (forall u, Valid u = true <-> Names u <> [] /\ Token u <> "") /\
  Valid (mkUpdate token [""]) = true /\
  forall (w : World) (h : list Call),
    gets (snd (run w h (makeUpdate (mkUpdate token [""])))) =
    ["https://www.duckdns.org/update?domains=&token=" +:+ token +:+ "&ip="].
Proof.
  intros Ht.
  assert (Hv : Valid (mkUpdate token [""]) = true) by (by apply Valid_true).
  split; [apply Valid_true|]. split; [done|]. intros w h.
  rewrite makeUpdate_run by done. cbn [snd Names].
  rewrite gets_loop_calls. cbn [fmap list_fmap]. by rewrite updateURL_eq.
Qed.

End Claims.

(** ** The program on sample inputs *)

Example Split_a_b_c : strings.Split "a b c" " " = ["a"; "b"; "c"].
Proof. reflexivity. Qed.

Example Split_two_spaces : strings.Split "a  b" " " = ["a"; ""; "b"].
Proof. reflexivity. Qed.

Example Split_outer_spaces : strings.Split " a b " " " = [""; "a"; "b"; ""].
Proof. reflexivity. Qed.

Example Split_longer_separator :
  strings.Split "a, b,c, " ", " = ["a"; "b,c"; ""].
Proof. reflexivity. Qed.

Example Contains_samples :
  strings.Contains "OK" "KO" = false /\
  strings.Contains "<p>KO</p>" "KO" = true /\
  strings.Contains "K" "KO" = false.
Proof. by repeat split. Qed.

Example Join_samples :
  strings.Join ["a"; "b"; "c"] ", " = "a, b, c" /\
  strings.Join ["x"] ", " = "x" /\
  strings.Join [] ", " = "".
Proof. by repeat split. Qed.

(** Environment only: names and token come from the variables, and the
    file is not read. *)
Example run_env_only :
  run (allOK (sampleEnv "a b")) [] (main sampleUnmarshal emptyCLI) =
  (Returned tt,
   [os_Getenv "DUCK_TOKEN"; os_Getenv "DUCK_NAMES";
    http_Get "https://www.duckdns.org/update?domains=a&token=t&ip=";
    ioutil_ReadAll 2; Body_Close 2;
    http_Get "https://www.duckdns.org/update?domains=b&token=t&ip=";
    ioutil_ReadAll 5; Body_Close 5]).
Proof. vm_compute. reflexivity. Qed.

(** Names from the environment, token from the file. *)
Example run_env_then_file :
  run (scripted (namesOnlyEnv "a") (fun _ => Ok "token: abc") (fun _ => "OK"))
    [] (main sampleUnmarshal emptyCLI) =
  (Returned tt,
   [os_Getenv "DUCK_TOKEN"; os_Getenv "DUCK_NAMES";
    ioutil_ReadFile "duckdns.yaml";
    http_Get "https://www.duckdns.org/update?domains=a&token=abc&ip=";
    ioutil_ReadAll 3; Body_Close 3]).
Proof. vm_compute. reflexivity. Qed.

(** Nothing configured anywhere: the process exits with status 1. *)
Example run_nothing_configured :
  run (allOK ∅) [] (main sampleUnmarshal emptyCLI) =
  (Exited 1,
   [os_Getenv "DUCK_TOKEN"; os_Getenv "DUCK_NAMES";
    ioutil_ReadFile "duckdns.yaml"]).
Proof. vm_compute. reflexivity. Qed.

(** A failed GET and an unreadable body are recorded, and the names after
    them are still attempted. *)
Example run_flaky :
  run flaky [] (makeUpdate (mkUpdate "t" ["a"; "b"; "c"])) =
  (Returned (Some (errors_New ("dial tcp: i/o timeout" +:+ newline +:+
                               "unexpected EOF"))),
   [http_Get "https://www.duckdns.org/update?domains=a&token=t&ip=";
    http_Get "https://www.duckdns.org/update?domains=b&token=t&ip=";
    ioutil_ReadAll 1;
    http_Get "https://www.duckdns.org/update?domains=c&token=t&ip=";
    ioutil_ReadAll 3; Body_Close 3]).
Proof. vm_compute. reflexivity. Qed.

(** ** The claims on sample inputs *)

Lemma cli_request_is_final_witness :
  cli_Token sampleCLI <> "" /\ cli_Names sampleCLI <> [] /\
  main sampleUnmarshal sampleCLI = dispatch (mkUpdate "tok" ["home"; "lab"]).
Proof.
  assert (Ht : cli_Token sampleCLI <> "") by discriminate.
  assert (Hn : cli_Names sampleCLI <> []) by discriminate.
  split; [exact Ht|]. split; [exact Hn|].
  exact (proj1 (cli_request_is_final sampleUnmarshal sampleCLI Ht Hn)).
Defined.

Lemma merge_never_overwrites_witness :
  Valid (getConfigCLI emptyCLI) = false /\
  Valid (mkUpdate "t" ["a"; "b"]) = true /\
  Forall (fun c => forall f, c <> ioutil_ReadFile f)
    (snd (run (allOK (sampleEnv "a b")) [] (main sampleUnmarshal emptyCLI))).
Proof.
  split; [reflexivity|]. split; [reflexivity|].
  apply (proj2 (proj2 (proj2
    (merge_never_overwrites sampleUnmarshal (allOK (sampleEnv "a b")) []
       (mkUpdate "" []) "duckdns.yaml" emptyCLI)))
    (mkUpdate "t" ["a"; "b"])); reflexivity.
Defined.

Lemma dispatcher_url_witness :
  Valid (mkUpdate "tok" ["home"; "lab"]) = true /\
  http_Get "https://www.duckdns.org/update?domains=lab&token=tok&ip="
  ∈ snd (run (allOK ∅) [] (makeUpdate (mkUpdate "tok" ["home"; "lab"]))).
Proof.
  split; [reflexivity|].
  apply (proj1 (dispatcher_url (allOK ∅) []
                  (mkUpdate "tok" ["home"; "lab"]) eq_refl) "lab").
  apply list_elem_of_further, list_elem_of_here.
Defined.

Lemma response_body_decides_witness :
  let w := scripted ∅ noFile (fun _ => "KO") in
  let u := mkUpdate "tok" ["home"] in
  network w [] (updateURL u "home") = Ok (mkResponse 0) /\
  bodies w ([] ++ [http_Get (updateURL u "home")]) 0 = Ok "KO" /\
  fst (run w [] (updateName u [] "home")) =
    Returned ["Error updating home with DuckDNS"].
Proof.
  intros w u. split; [reflexivity|]. split; [reflexivity|].
  apply (proj1 (proj2 (response_body_decides w [] u [] "home"
                         (mkResponse 0) "KO" eq_refl eq_refl))).
  by exists "", "".
Defined.

Lemma aggregate_error_witness :
  let u := mkUpdate "t" ["x"; "c"; "d"] in
  Valid u = true /\
  fst (run onlyDOK [] (makeUpdate u)) =
    Returned (Some (errors_New ("Error updating x with DuckDNS" +:+ newline +:+
                                "Error updating c with DuckDNS"))) /\
  length (lines ("Error updating x with DuckDNS" +:+ newline +:+
                 "Error updating c with DuckDNS")) = 2%nat.
Proof.
  intros u. split; [reflexivity|].
  destruct (aggregate_error onlyDOK [] u eq_refl) as (Hret & _ & Htwo).
  split; [exact Hret|].
  destruct (Htwo eq_refl) as (m1 & m2 & Herrs & _ & Hlines).
  injection Herrs as <- <-. by apply Hlines.
Defined.

Lemma one_attempt_per_name_witness :
  let u := mkUpdate "t" ["x"; "x"; "d"] in
  Valid u = true /\
  gets (snd (run onlyDOK [] (makeUpdate u))) =
    ["https://www.duckdns.org/update?domains=x&token=t&ip=";
     "https://www.duckdns.org/update?domains=x&token=t&ip=";
     "https://www.duckdns.org/update?domains=d&token=t&ip="].
Proof.
  intros u. split; [reflexivity|].
  exact (proj2 (one_attempt_per_name onlyDOK [] u eq_refl)).
Defined.

Lemma bad_file_changes_nothing_witness :
  files (allOK ∅) "duckdns.yaml" =
    Err (errors_New "open duckdns.yaml: no such file or directory") /\
  run (allOK ∅) [] (getConfigFile sampleUnmarshal (mkUpdate "" ["home"])
                      "duckdns.yaml") =
    (Returned (mkUpdate "" ["home"]), [ioutil_ReadFile "duckdns.yaml"]).
Proof.
  split; [reflexivity|].
  apply (bad_file_changes_nothing sampleUnmarshal (allOK ∅) []
           (mkUpdate "" ["home"]) "duckdns.yaml").
  left. eexists. reflexivity.
Defined.

Lemma env_names_split_witness :
  Names (mkUpdate "tok" []) = [] /\
  environ (allOK (namesOnlyEnv "a b c")) !! "DUCK_NAMES" = Some "a b c" /\
  exists u',
    fst (run (allOK (namesOnlyEnv "a b c")) [] (getConfigEnv (mkUpdate "tok" [])))
      = Returned u' /\
    Names u' = ["a"; "b"; "c"] /\
    Names u' = strings.Split "a b c" " ".
Proof.
  split; [reflexivity|]. split; [reflexivity|].
  apply (env_names_split (allOK (namesOnlyEnv "a b c")) [] (mkUpdate "tok" []));
    reflexivity.
Defined.

Lemma empty_name_is_valid_witness :
  "tok" <> "" /\
  Valid (mkUpdate "tok" [""]) = true /\
  gets (snd (run (allOK ∅) [] (makeUpdate (mkUpdate "tok" [""])))) =
    ["https://www.duckdns.org/update?domains=&token=tok&ip="].
Proof.
  assert (Ht : "tok" <> "") by discriminate.
  split; [exact Ht|].
  destruct (empty_name_is_valid "tok" Ht) as (_ & Hv & Hget).
  split; [exact Hv|]. exact (Hget (allOK ∅) []).
Defined.

(** C5, as first stated, fails when a recorded text holds a newline of
    its own.  Take [DUCK_TOKEN] to be ["t"] and [DUCK_NAMES] to hold three
    names, the first being ["a#"], newline, ["b"]: the environment reader
    returns these three names.  The GET for the first name is made (the
    newline is in the fragment of its URL); with the first two updates
    answered ["KO"] and the third ["OK"], exactly two failures are
    recorded and the text of the error has three lines. *)
Lemma two_failures_three_lines :
  fst (run threeNamesWorld [] (getConfigEnv (getConfigCLI emptyCLI))) =
    Returned threeNames /\
  Valid threeNames = true /\
  length (Names threeNames) = 3%nat /\
  length (failures onlyDOK [] threeNames (Names threeNames)) = 2%nat /\
  (exists msg,
    fst (run onlyDOK [] (makeUpdate threeNames)) =
      Returned (Some (errors_New msg)) /\
    lines msg =
      ["Error updating a#"; "b with DuckDNS"; "Error updating c with DuckDNS"] /\
    length (lines msg) <> 2%nat) /\
  fst (run threeNamesWorld [] (main sampleUnmarshal emptyCLI)) = Exited 1 /\
  gets (snd (run threeNamesWorld [] (main sampleUnmarshal emptyCLI))) =
    ["https://www.duckdns.org/update?domains=a#" +:+ newline +:+
       "b&token=t&ip=";
     "https://www.duckdns.org/update?domains=c&token=t&ip=";
     "https://www.duckdns.org/update?domains=d&token=t&ip="].
Proof.
  split; [vm_compute; reflexivity|].
  split; [reflexivity|]. split; [reflexivity|]. split; [reflexivity|].
  split.
  - eexists. split; [vm_compute; reflexivity|].
    split; [reflexivity|]. vm_compute. discriminate.
  - split; vm_compute; reflexivity.
Qed.

(** C10, as first stated, fails in two ways.  With names given on the
    command line and no token there, the environment reader runs and
    leaves the names alone, whatever [DUCK_NAMES] holds: no empty name is
    added and none is attempted.  And with no token anywhere the names
    are split, the empty one among them, but the request is not valid and
    the process exits before any update is attempted. *)
Lemma stray_space_without_empty_attempt :
  stray_space "a  b" /\
  (let w := allOK (sampleEnv "a  b") in
   fst (run w [] (getConfigEnv (getConfigCLI namesOnlyCLI))) =
     Returned (mkUpdate "t" ["home"]) /\
   ("" ∉ ["home"]) /\
   gets (snd (run w [] (main sampleUnmarshal namesOnlyCLI))) =
     ["https://www.duckdns.org/update?domains=home&token=t&ip="]) /\
  (let w := allOK (namesOnlyEnv "a  b") in
   fst (run w [] (getConfigEnv (getConfigCLI emptyCLI))) =
     Returned (mkUpdate "" ["a"; ""; "b"]) /\
   run w [] (main sampleUnmarshal emptyCLI) =
     (Exited 1,
      [os_Getenv "DUCK_TOKEN"; os_Getenv "DUCK_NAMES";
       ioutil_ReadFile "duckdns.yaml"]) /\
   gets (snd (run w [] (main sampleUnmarshal emptyCLI))) = []).
Proof.
  split; [right; right; by exists "a", "b"|]. split.
  - split; [reflexivity|]. split; [|reflexivity].
    intros Hin. apply list_elem_of_singleton in Hin. discriminate Hin.
  - split; [reflexivity|]. split; reflexivity.
Qed.

(** ** Facts about the merge as a whole *)

Lemma Update_eta (u : Update) : mkUpdate (Token u) (Names u) = u.
Proof. by destruct u. Qed.

Lemma orToken_set (a b : string) : a <> "" -> orToken a b = a.
Proof. intros Ha. unfold orToken. by rewrite decide_False. Qed.

Lemma orToken_nil_r (a : string) : orToken a "" = a.
Proof. unfold orToken. by case_decide. Qed.

Lemma orToken_assoc (a b c : string) :
  orToken (orToken a b) c = orToken a (orToken b c).
Proof. unfold orToken. by repeat case_decide. Qed.

Lemma orToken_idem (a b : string) : orToken (orToken a b) b = orToken a b.
Proof. unfold orToken. by repeat case_decide. Qed.

Lemma orNames_set (a b : list string) : a <> [] -> orNames a b = a.
Proof. intros Ha. unfold orNames. by rewrite decide_False. Qed.

Lemma orNames_nil_r (a : list string) : orNames a [] = a.
Proof. unfold orNames. by case_decide. Qed.

Lemma orNames_assoc (a b c : list string) :
  orNames (orNames a b) c = orNames a (orNames b c).
Proof. unfold orNames. by repeat case_decide. Qed.

Lemma orNames_idem (a b : list string) : orNames (orNames a b) b = orNames a b.
Proof. unfold orNames. by repeat case_decide. Qed.

Lemma length_zero_nil {A : Type} (l : list A) : length l = 0%nat <-> l = [].
Proof. by destruct l. Qed.

(** The environment reader, field by field. *)
Lemma envMerged_fields (w : World) (u : Update) :
  envMerged w u =
  mkUpdate (orToken (Token u) (getenv w "DUCK_TOKEN"))
           (orNames (Names u) (envNames w)).
Proof.
  unfold envMerged, orToken, orNames, envNames.
  destruct u as [tok names]. cbn [Token Names].
  destruct (decide (tok = "")); cbn [Token Names];
    destruct names; cbn [length];
      repeat (case_bool_decide || case_decide); cbn [andb];
      congruence || done.
Qed.

Section MergeFacts.

Variable yaml_Unmarshal : string -> Update -> Update * option error.

(** The file reader, field by field. *)
Lemma getConfigFile_run (w : World) (h : list Call) (u : Update)
    (file : string) :
  run w h (getConfigFile yaml_Unmarshal u file) =
  (Returned
     (mkUpdate
        (orToken (Token u) (Token (fileParsed yaml_Unmarshal w file)))
        (orNames (Names u) (Names (fileParsed yaml_Unmarshal w file)))),
   [ioutil_ReadFile file]).
Proof.
  unfold getConfigFile, fileParsed. cbn [bind call run answer].
  destruct (files w file) as [yamlFile|err]; cbn [bind run].
  - destruct (yaml_Unmarshal yamlFile _) as [update [err|]]; cbn [run].
    + cbn [Token Names]. by rewrite orToken_nil_r, orNames_nil_r, Update_eta.
    + destruct u as [tok names], update as [ftok fnames].
      unfold orToken, orNames. cbn [Token Names].
      destruct names, fnames; cbn [length];
        repeat case_decide; cbn [Token Names]; congruence || done.
  - cbn [Token Names]. by rewrite orToken_nil_r, orNames_nil_r, Update_eta.
Qed.

Lemma merged_file_step (w : World) (cli : CLIOptions) :
  let envU := envMerged w (getConfigCLI cli) in
  let file := fileParsed yaml_Unmarshal w (cli_File cli) in
  mkUpdate (orToken (Token envU) (Token file))
           (orNames (Names envU) (Names file)) =
  merged yaml_Unmarshal w cli.
Proof.
  intros envU file. unfold envU, merged. rewrite envMerged_fields.
  cbn [Token Names getConfigCLI]. fold file.
  by rewrite orToken_assoc, orNames_assoc.
Qed.

Lemma merged_env_valid (w : World) (cli : CLIOptions) :
  Valid (envMerged w (getConfigCLI cli)) = true ->
  merged yaml_Unmarshal w cli = envMerged w (getConfigCLI cli).
Proof.
  intros Hv. apply Valid_true in Hv as [Hn Ht].
  rewrite <- merged_file_step. cbn zeta.
  by rewrite orToken_set, orNames_set, Update_eta.
Qed.

Lemma envMerged_valid (w : World) (u : Update) :
  Valid u = true -> envMerged w u = u.
Proof.
  intros Hv. apply Valid_true in Hv as [Hn Ht].
  by rewrite envMerged_fields, orToken_set, orNames_set, Update_eta.
Qed.

Lemma merged_cli_valid (w : World) (cli : CLIOptions) :
  Valid (getConfigCLI cli) = true ->
  merged yaml_Unmarshal w cli = getConfigCLI cli.
Proof.
  intros Hv. rewrite merged_env_valid; rewrite envMerged_valid; done.
Qed.

(** [main] is its configuration reads, then the dispatch of the merged
    request. *)
Lemma main_run (w : World) (cli : CLIOptions) :
  run w [] (main yaml_Unmarshal cli) =
  let (o, t) := run w (config_calls w cli)
                  (dispatch (merged yaml_Unmarshal w cli)) in
  (o, config_calls w cli ++ t).
Proof.
  unfold config_calls.
  destruct (Valid (getConfigCLI cli)) eqn:Hc.
  - rewrite main_cli_valid, merged_cli_valid by done.
    by destruct (run w [] (dispatch (getConfigCLI cli))).
  - unfold main. rewrite Hc. cbn [negb].
    rewrite run_bind, getConfigEnv_run. cbn [app].
    destruct (Valid (envMerged w (getConfigCLI cli))) eqn:He.
    + cbn [negb bind]. rewrite merged_env_valid by done.
      fold (dispatch (envMerged w (getConfigCLI cli))).
      by destruct (run w _ (dispatch _)).
    + cbn [negb]. rewrite run_bind, getConfigFile_run. cbn [app].
      rewrite (merged_file_step w cli).
      fold (dispatch (merged yaml_Unmarshal w cli)).
      by destruct (run w _ (dispatch _)).
Qed.

Lemma merged_invalid (w : World) (cli : CLIOptions) :
  Valid (merged yaml_Unmarshal w cli) = false ->
  config_calls w cli =
  [os_Getenv "DUCK_TOKEN"; os_Getenv "DUCK_NAMES";
   ioutil_ReadFile (cli_File cli)].
Proof.
  intros Hm. unfold config_calls.
  destruct (Valid (getConfigCLI cli)) eqn:Hc.
  - rewrite merged_cli_valid in Hm by done. congruence.
  - destruct (Valid (envMerged w (getConfigCLI cli))) eqn:He; [|done].
    rewrite merged_env_valid in Hm by done. congruence.
Qed.

Lemma dispatch_run (w : World) (h : list Call) (u : Update) :
  run w h (dispatch u) =
  if Valid u
  then (if decide (failures w h u (Names u) = []) then Returned tt
        else Exited 1,
        loop_calls w h u (Names u))
  else (Exited 1, []).
Proof.
  unfold dispatch. destruct (Valid u) eqn:Hv.
  - rewrite run_bind, makeUpdate_run by done. unfold aggregate.
    destruct (failures w h u (Names u)); cbn [length];
      repeat case_decide; try done; cbn [run]; by rewrite app_nil_r.
  - by rewrite run_bind, makeUpdate_invalid.
Qed.

End MergeFacts.

(** ** Facts about the calls of the dispatcher *)

Lemma closes_app (t1 t2 : list Call) : closes (t1 ++ t2) = (closes t1 + closes t2)%nat.
Proof. unfold closes. by rewrite List.filter_app, length_app. Qed.

Lemma reads_app (t1 t2 : list Call) : reads (t1 ++ t2) = (reads t1 + reads t2)%nat.
Proof. unfold reads. by rewrite List.filter_app, length_app. Qed.

(** One turn: a body is closed only after it was read, at most one body
    is read, and a turn that closes no body records a failure. *)
Lemma turn_accounting (w : World) (h : list Call) (u : Update) (v : string) :
  (closes (calls w h u v) <= reads (calls w h u v))%nat /\
  (reads (calls w h u v) <= 1)%nat /\
  (1 <= closes (calls w h u v) + length (recorded w h u v))%nat.
Proof. turn_cases w h u v; cbn; lia. Qed.

Lemma loop_accounting (w : World) (u : Update) (names : list string) :
  forall h,
    (closes (loop_calls w h u names) <= reads (loop_calls w h u names))%nat /\
    (reads (loop_calls w h u names) <= length names)%nat /\
    (length names <=
       closes (loop_calls w h u names) + length (failures w h u names))%nat.
Proof.
  induction names as [|v names IH]; intros h; [cbn; lia|].
  cbn [loop_calls failures length].
  rewrite closes_app, reads_app, length_app.
  pose proof (turn_accounting w h u v).
  pose proof (IH (h ++ calls w h u v)). lia.
Qed.

Lemma makeUpdate_accounting (w : World) (h : list Call) (u : Update) :
  Valid u = true ->
  let t := snd (run w h (makeUpdate u)) in
  (closes t <= reads t)%nat /\
  (reads t <= length (Names u))%nat /\
  (length (Names u) <= closes t + length (failures w h u (Names u)))%nat /\
  (length (failures w h u (Names u)) <= length (Names u))%nat.
Proof.
  intros Hv t. unfold t. rewrite makeUpdate_run by done. cbn [snd].
  pose proof (loop_accounting w u (Names u) h) as (H1 & H2 & H3).
  pose proof (length_failures w u (Names u) h). by repeat split.
Qed.

Lemma recorded_always_replies (ko : bool) (w : World) (h : list Call)
    (u : Update) (v : string) :
  always_replies ko w ->
  recorded w h u v = if ko then [koText v] else [].
Proof.
  intros [Hget Hbody].
  unfold recorded, updateName. fold (updateURL u v) (koText v).
  cbn [bind call run answer].
  destruct (Hget h (updateURL u v)) as [res ->]. cbn [bind run answer].
  destruct (Hbody (h ++ [http_Get (updateURL u v)]) (Body res))
    as (body & -> & ->).
  cbn [bind run answer]. by destruct ko.
Qed.

Lemma failures_always_replies (ko : bool) (w : World) (u : Update)
    (names : list string) :
  always_replies ko w ->
  forall h, failures w h u names = if ko then koText <$> names else [].
Proof.
  intros Hw. induction names as [|v names IH]; intros h.
  - by destruct ko.
  - cbn [failures]. rewrite (recorded_always_replies ko), IH by done.
    by destruct ko.
Qed.

(** ** Further properties of the program *)

Section Further.

Variable yaml_Unmarshal : string -> Update -> Update * option error.

(** X1. [main] dispatches the request that takes each field from the
    first source that sets it, in the order CLI, environment, file: its
    run is its configuration reads followed by the run of the dispatch
    of that request. *)
Theorem main_dispatches_merged (w : World) (cli : CLIOptions) :
  run w [] (main yaml_Unmarshal cli) =
  let (o, t) := run w (config_calls w cli)
                  (dispatch (merged yaml_Unmarshal w cli)) in
  (o, config_calls w cli ++ t).
Proof. apply main_run. Qed.

(** X2. [main] returns normally exactly when the merged request is valid
    and no update recorded a failure; in every other case the process
    exits with status 1. *)
Theorem main_exit_status (w : World) (cli : CLIOptions) :
  let u := merged yaml_Unmarshal w cli in
  fst (run w [] (main yaml_Unmarshal cli)) =
  if Valid u && bool_decide (failures w (config_calls w cli) u (Names u) = [])
  then Returned tt
  else Exited 1.
Proof.
  intros u. rewrite main_run, dispatch_run. fold u.
  destruct (Valid u); [|done]. cbn [andb fst].
  by destruct (failures _ _ _ _).
Qed.

(** X3. When no source gives a valid request, [main] has read the two
    variables and the file, in that order, makes no other call (no GET),
    and the process exits with status 1. *)
Theorem main_without_configuration (w : World) (cli : CLIOptions) :
  Valid (merged yaml_Unmarshal w cli) = false ->
  run w [] (main yaml_Unmarshal cli) =
  (Exited 1,
   [os_Getenv "DUCK_TOKEN"; os_Getenv "DUCK_NAMES";
    ioutil_ReadFile (cli_File cli)]).
Proof.
  intros Hm.
  rewrite main_run, dispatch_run, Hm, (merged_invalid yaml_Unmarshal) by done.
  reflexivity.
Qed.

(** X4. The calls of [main] are configuration reads first, then network
    calls only.  The configuration reads are a beginning of the list
    [DUCK_TOKEN], [DUCK_NAMES], the file named on the command line; and
    the GETs are those of the merged names, one per name in order, when
    the merged request is valid, and none otherwise. *)
Theorem main_call_order (w : World) (cli : CLIOptions) :
  let u := merged yaml_Unmarshal w cli in
  exists net,
    snd (run w [] (main yaml_Unmarshal cli)) = config_calls w cli ++ net /\
    Forall (fun c => reads_config c = true) (config_calls w cli) /\
    config_calls w cli `prefix_of`
      [os_Getenv "DUCK_TOKEN"; os_Getenv "DUCK_NAMES";
       ioutil_ReadFile (cli_File cli)] /\
    Forall (fun c => reads_config c = false) net /\
    gets net = if Valid u then updateURL u <$> Names u else [].
Proof.
  intros u. rewrite main_run, dispatch_run. fold u.
  exists (if Valid u then loop_calls w (config_calls w cli) u (Names u)
          else []).
  split; [by destruct (Valid u)|].
  split; [unfold config_calls; repeat case_match; by repeat constructor|].
  split.
  { unfold config_calls. repeat case_match.
    - apply prefix_nil.
    - by exists [ioutil_ReadFile (cli_File cli)].
    - done. }
  destruct (Valid u).
  - split; [apply loop_calls_no_config|apply gets_loop_calls].
  - by split.
Qed.

(** X5. When the file is read and parses, the file reader fills the
    token from the file only if the request has none, and the names from
    the file only if the request has none; a request with neither gets
    exactly the token and names of the file. *)
Theorem file_fills_unset_fields (w : World) (h : list Call) (u : Update)
    (file yamlFile : string) (update : Update) :
  files w file = Ok yamlFile ->
  yaml_Unmarshal yamlFile (mkUpdate "" []) = (update, None) ->
  run w h (getConfigFile yaml_Unmarshal u file) =
    (Returned (mkUpdate (if decide (Token u = "") then Token update
                         else Token u)
                        (if decide (Names u = []) then Names update
                         else Names u)),
     [ioutil_ReadFile file]) /\
  (Token u = "" -> Names u = [] ->
   fst (run w h (getConfigFile yaml_Unmarshal u file)) = Returned update).
Proof.
  intros Hf Hy.
  assert (Hp : fileParsed yaml_Unmarshal w file = update)
    by (unfold fileParsed; by rewrite Hf, Hy).
  rewrite getConfigFile_run, Hp. split; [done|].
  intros -> ->. cbn [fst]. unfold orToken, orNames.
  rewrite !decide_True by done. by rewrite Update_eta.
Qed.

(** X6. Reading the file a second time changes nothing: the file reader
    applied to its own result returns that result. *)
Theorem file_merge_idempotent (w : World) (h h' : list Call) (u : Update)
    (file : string) :
  exists u',
    fst (run w h (getConfigFile yaml_Unmarshal u file)) = Returned u' /\
    fst (run w h' (getConfigFile yaml_Unmarshal u' file)) = Returned u'.
Proof.
  eexists. split; [by rewrite getConfigFile_run|].
  rewrite getConfigFile_run. cbn [fst Token Names].
  by rewrite orToken_idem, orNames_idem.
Qed.

End Further.

(** X7. When [DUCK_TOKEN] and [DUCK_NAMES] are both unset or empty, the
    environment reader returns the request as it was, after reading the
    two variables. *)
Theorem env_unset_changes_nothing (w : World) (h : list Call) (u : Update) :
  getenv w "DUCK_TOKEN" = "" ->
  getenv w "DUCK_NAMES" = "" ->
  run w h (getConfigEnv u) =
  (Returned u, [os_Getenv "DUCK_TOKEN"; os_Getenv "DUCK_NAMES"]).
Proof.
  intros Ht Hn. rewrite getConfigEnv_run, envMerged_fields.
  unfold envNames. rewrite Ht, Hn. cbn [decide].
  rewrite decide_True by done.
  by rewrite orToken_nil_r, orNames_nil_r, Update_eta.
Qed.

(** X8. When the request has no names and [DUCK_NAMES] is not empty, the
    names the environment reader returns are not empty, none of them
    holds a space, and joined with single spaces they give the value of
    [DUCK_NAMES] back. *)
Theorem env_names_round_trip (w : World) (h : list Call) (u : Update) :
  Names u = [] ->
  getenv w "DUCK_NAMES" <> "" ->
  exists u',
    fst (run w h (getConfigEnv u)) = Returned u' /\
    Names u' <> [] /\
    Forall (fun n => strings.Contains n " " = false) (Names u') /\
    strings.Join (Names u') " " = getenv w "DUCK_NAMES".
Proof.
  intros Hn Hs. exists (envMerged w u).
  rewrite getConfigEnv_run. split; [done|].
  rewrite envMerged_fields. cbn [Names]. rewrite Hn.
  unfold orNames, envNames. cbn [decide].
  rewrite decide_True by done. rewrite decide_False by done.
  split; [|split].
  - rewrite strings_facts.Split_byte.
    apply strings_facts.fields_from_nonempty.
  - apply strings_facts.Split_fields_no_sep.
  - apply strings_facts.Join_Split.
Qed.

(** X9. Reading the environment a second time changes nothing: the
    environment reader applied to its own result returns that result. *)
Theorem env_merge_idempotent (w : World) (h h' : list Call) (u : Update) :
  exists u',
    fst (run w h (getConfigEnv u)) = Returned u' /\
    fst (run w h' (getConfigEnv u')) = Returned u'.
Proof.
  exists (envMerged w u). rewrite !getConfigEnv_run. split; [done|].
  cbn [fst]. f_equal. rewrite !envMerged_fields. cbn [Token Names].
  by rewrite orToken_idem, orNames_idem.
Qed.

(** X10. In the turn of the loop for the name [x]: when the GET fails,
    the text of its error is recorded as it is and no body is read or
    closed; when the GET is answered and reading the body fails, the text
    of that error is recorded as it is and the body is not closed. *)
Theorem transport_error_recorded (w : World) (h : list Call) (u : Update)
    (errs : list string) (x : string) :
  (forall err,
      network w h (updateURL u x) = Err err ->
      run w h (updateName u errs x) =
      (Returned (errs ++ [Error err]), [http_Get (updateURL u x)])) /\
  (forall res err,
      network w h (updateURL u x) = Ok res ->
      bodies w (h ++ [http_Get (updateURL u x)]) (Body res) = Err err ->
      run w h (updateName u errs x) =
      (Returned (errs ++ [Error err]),
       [http_Get (updateURL u x); ioutil_ReadAll (Body res)])).
Proof.
  unfold updateName. fold (updateURL u x). cbn [bind call run answer].
  split.
  - by intros err ->.
  - intros res err -> Hread. cbn [bind run answer]. by rewrite Hread.
Qed.

(** X11. For a valid request, in every world: the dispatcher closes a
    body only after reading it and reads at most one body per name; and
    every name whose body was not closed has a failure recorded, so the
    names are at most the closed bodies plus the failures. *)
Theorem dispatcher_accounting (w : World) (h : list Call) (u : Update) :
  Valid u = true ->
  let t := snd (run w h (makeUpdate u)) in
  (closes t <= reads t)%nat /\
  (reads t <= length (Names u))%nat /\
  (length (Names u) <= closes t + length (failures w h u (Names u)))%nat /\
  (length (failures w h u (Names u)) <= length (Names u))%nat.
Proof. apply makeUpdate_accounting. Qed.

(** X12. For a valid request, when every GET is answered and every body
    holds ["KO"], the dispatcher returns an error whose text is the
    failure texts of all the names, in the order of the list, joined
    with newlines. *)
Theorem all_updates_refused (w : World) (h : list Call) (u : Update) :
  Valid u = true ->
  always_replies true w ->
  fst (run w h (makeUpdate u)) =
  Returned (Some (errors_New
    (strings.Join
       ((fun n => "Error updating " +:+ n +:+ " with DuckDNS") <$> Names u)
       newline))).
Proof.
  intros Hv Hw. rewrite makeUpdate_run by done. cbn [fst].
  rewrite (failures_always_replies true) by done. unfold aggregate.
  apply Valid_true in Hv as [Hn _].
  destruct (Names u) as [|n names]; [done|]. cbn [fmap list_fmap length].
  by rewrite decide_True.
Qed.

(** X13. For a valid request, when every GET is answered and no body
    holds ["KO"], the dispatcher returns no error, after one GET, one
    read and one close per name. *)
Theorem all_updates_accepted (w : World) (h : list Call) (u : Update) :
  Valid u = true ->
  always_replies false w ->
  let t := snd (run w h (makeUpdate u)) in
  fst (run w h (makeUpdate u)) = Returned None /\
  length (gets t) = length (Names u) /\
  reads t = length (Names u) /\
  closes t = length (Names u).
Proof.
  intros Hv Hw t. unfold t.
  pose proof (makeUpdate_accounting w h u Hv) as Hacc.
  rewrite makeUpdate_run in * by done. cbn [fst snd] in *.
  rewrite (failures_always_replies false) in * by done.
  split; [done|]. rewrite gets_loop_calls, length_fmap.
  cbn [length] in Hacc. lia.
Qed.

(** ** The further properties on sample inputs *)

Lemma main_without_configuration_witness :
  Valid (merged sampleUnmarshal (allOK ∅) emptyCLI) = false /\
  run (allOK ∅) [] (main sampleUnmarshal emptyCLI) =
  (Exited 1,
   [os_Getenv "DUCK_TOKEN"; os_Getenv "DUCK_NAMES";
    ioutil_ReadFile "duckdns.yaml"]).
Proof.
  split; [reflexivity|].
  apply (main_without_configuration sampleUnmarshal (allOK ∅) emptyCLI).
  reflexivity.
Defined.

Lemma file_fills_unset_fields_witness :
  let w := scripted ∅ (fun _ => Ok "token: abc") (fun _ => "OK") in
  files w "duckdns.yaml" = Ok "token: abc" /\
  sampleUnmarshal "token: abc" (mkUpdate "" []) = (mkUpdate "abc" [], None) /\
  run w [] (getConfigFile sampleUnmarshal (mkUpdate "" ["home"]) "duckdns.yaml")
  = (Returned (mkUpdate "abc" ["home"]), [ioutil_ReadFile "duckdns.yaml"]).
Proof.
  intros w. split; [reflexivity|]. split; [reflexivity|].
  exact (proj1 (file_fills_unset_fields sampleUnmarshal w []
                  (mkUpdate "" ["home"]) "duckdns.yaml" "token: abc"
                  (mkUpdate "abc" []) eq_refl eq_refl)).
Defined.

Lemma env_unset_changes_nothing_witness :
  getenv (allOK ∅) "DUCK_TOKEN" = "" /\
  getenv (allOK ∅) "DUCK_NAMES" = "" /\
  run (allOK ∅) [] (getConfigEnv (mkUpdate "tok" [])) =
  (Returned (mkUpdate "tok" []),
   [os_Getenv "DUCK_TOKEN"; os_Getenv "DUCK_NAMES"]).
Proof.
  split; [reflexivity|]. split; [reflexivity|].
  apply (env_unset_changes_nothing (allOK ∅) [] (mkUpdate "tok" []));
    reflexivity.
Defined.

Lemma env_names_round_trip_witness :
  let w := allOK (namesOnlyEnv " a  b") in
  Names (mkUpdate "" []) = [] /\
  getenv w "DUCK_NAMES" <> "" /\
  exists u',
    fst (run w [] (getConfigEnv (mkUpdate "" []))) = Returned u' /\
    Names u' <> [] /\
    Forall (fun n => strings.Contains n " " = false) (Names u') /\
    strings.Join (Names u') " " = getenv w "DUCK_NAMES".
Proof.
  intros w.
  assert (Hs : getenv w "DUCK_NAMES" <> "") by (vm_compute; discriminate).
  split; [reflexivity|]. split; [exact Hs|].
  exact (env_names_round_trip w [] (mkUpdate "" []) eq_refl Hs).
Defined.

Lemma transport_error_recorded_witness :
  let u := mkUpdate "t" ["a"; "b"] in
  network flaky [] (updateURL u "a") = Err (errors_New "dial tcp: i/o timeout") /\
  run flaky [] (updateName u [] "a") =
    (Returned ["dial tcp: i/o timeout"], [http_Get (updateURL u "a")]) /\
  network flaky [] (updateURL u "b") = Ok (mkResponse 0) /\
  bodies flaky ([] ++ [http_Get (updateURL u "b")]) 0 =
    Err (errors_New "unexpected EOF") /\
  run flaky [] (updateName u [] "b") =
    (Returned ["unexpected EOF"],
     [http_Get (updateURL u "b"); ioutil_ReadAll 0]).
Proof.
  intros u. split; [reflexivity|]. split.
  { exact (proj1 (transport_error_recorded flaky [] u [] "a")
             (errors_New "dial tcp: i/o timeout") eq_refl). }
  split; [reflexivity|]. split; [reflexivity|].
  exact (proj2 (transport_error_recorded flaky [] u [] "b")
           (mkResponse 0) (errors_New "unexpected EOF") eq_refl eq_refl).
Defined.

Lemma dispatcher_accounting_witness :
  let u := mkUpdate "t" ["a"; "b"; "c"] in
  let t := snd (run flaky [] (makeUpdate u)) in
  Valid u = true /\
  (closes t <= reads t)%nat /\
  (reads t <= 3)%nat /\
  (3 <= closes t + length (failures flaky [] u (Names u)))%nat /\
  (length (failures flaky [] u (Names u)) <= 3)%nat.
Proof.
  intros u t. split; [reflexivity|].
  exact (dispatcher_accounting flaky [] u eq_refl).
Defined.

Lemma all_updates_refused_witness :
  let w := scripted ∅ noFile (fun _ => "KO") in
  let u := mkUpdate "t" ["a"; "b"] in
  Valid u = true /\
  always_replies true w /\
  fst (run w [] (makeUpdate u)) =
  Returned (Some (errors_New
    ("Error updating a with DuckDNS" +:+ newline +:+
     "Error updating b with DuckDNS"))).
Proof.
  intros w u.
  assert (Hw : always_replies true w).
  { split; intros; eexists; [reflexivity|split; reflexivity]. }
  split; [reflexivity|]. split; [exact Hw|].
  exact (all_updates_refused w [] u eq_refl Hw).
Defined.

Lemma all_updates_accepted_witness :
  let u := mkUpdate "t" ["a"; "b"] in
  let t := snd (run (allOK ∅) [] (makeUpdate u)) in
  Valid u = true /\
  always_replies false (allOK ∅) /\
  fst (run (allOK ∅) [] (makeUpdate u)) = Returned None /\
  length (gets t) = 2%nat /\ reads t = 2%nat /\ closes t = 2%nat.
Proof.
  intros u t.
  assert (Hw : always_replies false (allOK ∅)).
  { split; intros; eexists; [reflexivity|split; reflexivity]. }
  split; [reflexivity|]. split; [exact Hw|].
  exact (all_updates_accepted (allOK ∅) [] u eq_refl Hw).
Defined.

(** ** Empty fields of [DUCK_NAMES], from the reader to the dispatcher *)

Lemma gets_config_calls (w : World) (cli : CLIOptions) :
  gets (config_calls w cli) = [].
Proof. unfold config_calls. by repeat case_match. Qed.

Lemma envMerged_names (w : World) (u : Update) (s : string) :
  Names u = [] ->
  environ w !! "DUCK_NAMES" = Some s ->
  s <> "" ->
  Names (envMerged w u) = strings.Split s " ".
Proof.
  intros Hn He Hs. rewrite envMerged_fields. cbn [Names]. rewrite Hn.
  unfold orNames, envNames, getenv. rewrite He. cbn [default].
  rewrite decide_True by done. by rewrite decide_False.
Qed.

Section EmptyFields.

Variable yaml_Unmarshal : string -> Update -> Update * option error.

Lemma merged_env_names (w : World) (cli : CLIOptions) (s : string) :
  cli_Names cli = [] ->
  environ w !! "DUCK_NAMES" = Some s ->
  s <> "" ->
  Names (merged yaml_Unmarshal w cli) = strings.Split s " ".
Proof.
  intros Hn He Hs. unfold merged. cbn [Names]. rewrite Hn.
  unfold orNames at 1. rewrite decide_True by done.
  rewrite orNames_set.
  - unfold envNames, getenv. rewrite He. cbn [default].
    by rewrite decide_False.
  - unfold envNames, getenv. rewrite He. cbn [default].
    rewrite decide_False by done. rewrite strings_facts.Split_byte.
    apply strings_facts.fields_from_nonempty.
Qed.

Lemma merged_token_set (w : World) (cli : CLIOptions) :
  cli_Token cli <> "" \/ getenv w "DUCK_TOKEN" <> "" \/
  Token (fileParsed yaml_Unmarshal w (cli_File cli)) <> "" ->
  Token (merged yaml_Unmarshal w cli) <> "".
Proof.
  unfold merged, orToken. cbn [Token].
  intros [H|[H|H]]; by repeat case_decide.
Qed.

(** C10 (amended). Let [DUCK_NAMES] be a non-empty value with a leading
    space, a trailing space or two spaces in a row.  When the request has
    no names as the environment reader runs, the reader returns a request
    whose names are the value split at every space, the empty string
    among them.  And when the command line gives no names (so that [main]
    runs the reader on a request without names) and some source gives a
    token (the command line, [DUCK_TOKEN] or the file), [main] reads
    [DUCK_NAMES] and then makes one GET per field of the value, in order:
    each empty field has a GET of its own, at its place, with an empty
    [domains] parameter and the token of the first source that gives one. *)
Theorem split_keeps_empty_fields (w : World) (s : string) :
  environ w !! "DUCK_NAMES" = Some s ->
  s <> "" ->
  stray_space s ->
  (forall (u : Update) (h : list Call),
      Names u = [] ->
      exists u',
        fst (run w h (getConfigEnv u)) = Returned u' /\
        Names u' = strings.Split s " " /\
        "" ∈ Names u') /\
  (forall cli : CLIOptions,
      cli_Names cli = [] ->
      cli_Token cli <> "" \/ getenv w "DUCK_TOKEN" <> "" \/
      Token (fileParsed yaml_Unmarshal w (cli_File cli)) <> "" ->
      let t := snd (run w [] (main yaml_Unmarshal cli)) in
      let token := Token (merged yaml_Unmarshal w cli) in
      os_Getenv "DUCK_NAMES" ∈ t /\
      gets t =
        (fun n => "https://www.duckdns.org/update?domains=" +:+ n +:+
                  "&token=" +:+ token +:+ "&ip=") <$> strings.Split s " " /\
      forall i : nat,
        strings.Split s " " !! i = Some "" ->
        gets t !! i =
        Some ("https://www.duckdns.org/update?domains=&token=" +:+
              token +:+ "&ip=")).
Proof.
  intros He Hs Hstray. split.
  - intros u h Hn. exists (envMerged w u). rewrite getConfigEnv_run.
    split; [done|]. rewrite (envMerged_names w u s) by done.
    split; [done|]. by apply strings_facts.stray_space_empty_field.
  - intros cli Hn Htok t token.
    pose proof (merged_env_names w cli s Hn He Hs) as Hnames.
    pose proof (merged_token_set w cli Htok) as Htoken.
    assert (Hv : Valid (merged yaml_Unmarshal w cli) = true).
    { apply Valid_true. split; [|done]. rewrite Hnames.
      rewrite strings_facts.Split_byte.
      apply strings_facts.fields_from_nonempty. }
    assert (Hc : Valid (getConfigCLI cli) = false).
    { apply Valid_false. by left. }
    assert (Hgets : gets t =
      (fun n => "https://www.duckdns.org/update?domains=" +:+ n +:+
                "&token=" +:+ token +:+ "&ip=") <$> strings.Split s " ").
    { unfold t. rewrite main_run, dispatch_run, Hv. cbn [snd].
      rewrite gets_app, gets_config_calls, gets_loop_calls, Hnames.
      cbn [app]. apply list_fmap_ext. intros _ n _. apply updateURL_eq. }
    split; [|split; [exact Hgets|]].
    + unfold t. rewrite main_run, dispatch_run, Hv. cbn [snd].
      apply elem_of_app. left. unfold config_calls. rewrite Hc.
      case_match; apply list_elem_of_further, list_elem_of_here.
    + intros i Hi. by rewrite Hgets, list_lookup_fmap, Hi.
Qed.

End EmptyFields.

Lemma split_keeps_empty_fields_witness :
  let w := scripted (namesOnlyEnv "a  b") (fun _ => Ok "token: abc")
             (fun _ => "OK") in
  environ w !! "DUCK_NAMES" = Some "a  b" /\
  "a  b" <> "" /\
  stray_space "a  b" /\
  cli_Names emptyCLI = [] /\
  Token (fileParsed sampleUnmarshal w (cli_File emptyCLI)) <> "" /\
  (exists u',
    fst (run w [] (getConfigEnv (getConfigCLI emptyCLI))) = Returned u' /\
    Names u' = ["a"; ""; "b"] /\
    "" ∈ Names u') /\
  gets (snd (run w [] (main sampleUnmarshal emptyCLI))) =
    ["https://www.duckdns.org/update?domains=a&token=abc&ip=";
     "https://www.duckdns.org/update?domains=&token=abc&ip=";
     "https://www.duckdns.org/update?domains=b&token=abc&ip="] /\
  gets (snd (run w [] (main sampleUnmarshal emptyCLI))) !! 1%nat =
    Some "https://www.duckdns.org/update?domains=&token=abc&ip=".
Proof.
  intros w.
  assert (Hs : "a  b" <> "") by discriminate.
  assert (Hstray : stray_space "a  b").
  { right. right. by exists "a", "b". }
  assert (Hf : Token (fileParsed sampleUnmarshal w (cli_File emptyCLI)) <> "")
    by (vm_compute; discriminate).
  split; [reflexivity|]. split; [exact Hs|]. split; [exact Hstray|].
  split; [reflexivity|]. split; [exact Hf|].
  destruct (split_keeps_empty_fields sampleUnmarshal w "a  b"
              eq_refl Hs Hstray) as [Hreader Hmain].
  split; [exact (Hreader (getConfigCLI emptyCLI) [] eq_refl)|].
  destruct (Hmain emptyCLI eq_refl (or_intror (or_intror Hf)))
    as (_ & Hgets & Hempty).
  split; [exact Hgets|]. exact (Hempty 1%nat eq_refl).
Defined.
